(** * BioClusterQuant: nearest-neighbour-distance metrics and the batch loop

    A shallow embedding of [BioClusterQuant.py]:

    - [calculate_nnd_metrics_for_cell], the NND calculator (the "compute" of
      the specification), together with the library calls it makes
      ([NearestNeighbors(...).fit(coords).kneighbors(coords)], [np.mean],
      [np.maximum]);
    - the per-file loop of [process_folder_gui], with the file system and
      [pd.read_csv] made explicit as data of the run;

    and of the coordinate generators of [Make_synthetic_roi.py].

    Numbers.  A float64 is a primitive binary64 float: sums, products, square
    roots and quotients round to nearest-even, overflow to infinity and
    underflow to zero as the program's do, and concrete runs of the model
    compute the program's values bit for bit.  General facts about them rest
    on the specification of the primitive operations ([FloatAxioms]). *)

From Stdlib Require Import Lia List Bool Arith ZArith PArith String Ascii.
From Stdlib Require Import Permutation Sorted.
From Stdlib Require Import QArith Qminmax.
From Stdlib Require Import Floats.
From Stdlib Require Uint63.
Import ListNotations.

Local Close Scope Q_scope.

Set Implicit Arguments.
Set Warnings "-inexact-float".

(* ------------------------------------------------------------------ *)
(** ** Values, exceptions *)

(** [np.float64]. *)
Abbreviation npfloat := float (only parsing).

(** A zero or a finite number: neither NaN nor an infinity. *)
Definition SF_finite (x : spec_float) : bool :=
  match x with
  | S754_zero _ | S754_finite _ _ _ => true
  | S754_infinity _ | S754_nan => false
  end.

(** [np.isfinite]. *)
Definition isfinite (v : npfloat) : bool := SF_finite (Prim2SF v).

(** The exceptions the program distinguishes: [pd.errors.EmptyDataError] has a
    handler of its own, every other one falls to [except Exception]. *)
Inductive exn : Type :=
| KeyError
| ValueError
| IndexError
| EmptyDataError
| OtherError.

Inductive result (A : Type) : Type :=
| Ok (a : A)
| Raise (e : exn).
Arguments Ok {A} a.
Arguments Raise {A} e.

Definition bind {A B : Type} (m : result A) (k : A -> result B) : result B :=
  match m with
  | Ok a => k a
  | Raise e => Raise e
  end.

Notation "x <- m ;; k" := (bind m (fun x => k))
  (at level 61, m at next level, right associativity).

(* ------------------------------------------------------------------ *)
(** ** Constants of the module (lines 31-40) *)

Definition X_COL : string := "X".
Definition Y_COL : string := "Y".
Definition LABEL_COL_INPUT : string := "Label".
(** The literal [1e-9]: the double nearest to it, [0x1.12e0be826d695p-30]. *)
Definition EPSILON : npfloat := 1e-9%float.

(* ------------------------------------------------------------------ *)
(** ** Data frames

    A frame as [pd.read_csv] returns it: the header names that are present and
    the rows.  A row carries a cell for each of the three columns the program
    reads; the cell of a column that is not in [columns] is never looked at. *)

Record Row : Type := mkRow {
  row_X : npfloat;
  row_Y : npfloat;
  row_Label : string
}.

Record DataFrame : Type := mkDataFrame {
  columns : list string;
  rows : list Row
}.

Definition point : Type := (npfloat * npfloat)%type.

Definition has_column (c : string) (df : DataFrame) : bool :=
  existsb (String.eqb c) (columns df).

(** [df[[X_COL, Y_COL]].values]: a [KeyError] when a column is missing. *)
Definition xy_values (df : DataFrame) : result (list point) :=
  if has_column X_COL df && has_column Y_COL df
  then Ok (map (fun r => (row_X r, row_Y r)) (rows df))
  else Raise KeyError.

(* ------------------------------------------------------------------ *)
(** ** The library calls *)

Local Open Scope float_scope.

(** The distance the tree computes between two rows: the squares are
    accumulated in column order, the root is taken at the end. *)
Definition euclidean (p q : point) : npfloat :=
  PrimFloat.sqrt ((fst p - fst q) * (fst p - fst q) + (snd p - snd q) * (snd p - snd q)).

Fixpoint insert_sorted (x : npfloat) (l : list npfloat) : list npfloat :=
  match l with
  | [] => [x]
  | y :: t => if x <=? y then x :: y :: t else y :: insert_sorted x t
  end.

Definition sort_ascending (l : list npfloat) : list npfloat :=
  fold_right insert_sorted [] l.

(** [kneighbors]: for each query row the [k] smallest distances to the fitted
    rows, in ascending order.  The tree the library builds only speeds the
    search up; the distances returned are those of the exhaustive scan. *)
Definition kneighbors (k : nat) (fitted queries : list point)
  : list (list npfloat) :=
  map (fun q => firstn k (sort_ascending (map (euclidean q) fitted))) queries.

(** Every coordinate of the array is a finite number. *)
Definition all_finite (coords : list point) : bool :=
  forallb (fun p => isfinite (fst p) && isfinite (snd p)) coords.

(** The input validation of [fit]: a [ValueError] on NaN or infinity. *)
Definition check_array (coords : list point) : result (list point) :=
  if all_finite coords then Ok coords else Raise ValueError.

(** [NearestNeighbors(n_neighbors=k, ...).fit(coords).kneighbors(coords)],
    first component.  Asking for more neighbours than there are rows is a
    [ValueError] too. *)
Definition NearestNeighbors_fit_kneighbors (k : nat) (coords : list point)
  : result (list (list npfloat)) :=
  fitted <- check_array coords ;;
  if (List.length fitted <? k)%nat then Raise ValueError
  else Ok (kneighbors k fitted fitted).

(** The loop [for (i = 0; i < n; i++) res += a[i]]. *)
Definition sum_onto (res : npfloat) (a : list npfloat) : npfloat :=
  fold_left PrimFloat.add a res.

(** NumPy's pairwise summation of a one-dimensional array.  Fewer than eight
    entries are added in order.  Up to 128 entries are added into eight
    accumulators, block after block of eight; the accumulators are combined
    as a tree and the entries left over are added in order.  A longer array is
    cut in two at a multiple of eight and the two sums are added. *)
Definition acc8 : Type :=
  (npfloat * npfloat * npfloat * npfloat *
   npfloat * npfloat * npfloat * npfloat)%type.

Fixpoint block_loop (r : acc8) (a : list npfloat) : acc8 * list npfloat :=
  match a with
  | a0 :: a1 :: a2 :: a3 :: a4 :: a5 :: a6 :: a7 :: t =>
      let '(r0, r1, r2, r3, r4, r5, r6, r7) := r in
      block_loop (r0 + a0, r1 + a1, r2 + a2, r3 + a3,
                  r4 + a4, r5 + a5, r6 + a6, r7 + a7) t
  | _ => (r, a)
  end.

Definition block_sum (a : list npfloat) : npfloat :=
  match a with
  | a0 :: a1 :: a2 :: a3 :: a4 :: a5 :: a6 :: a7 :: t =>
      let '(r0, r1, r2, r3, r4, r5, r6, r7, rest) :=
        block_loop (a0, a1, a2, a3, a4, a5, a6, a7) t in
      sum_onto (((r0 + r1) + (r2 + r3)) + ((r4 + r5) + (r6 + r7))) rest
  | _ => sum_onto 0 a
  end.

Fixpoint pairwise_sum (fuel : nat) (a : list npfloat) : npfloat :=
  let n := List.length a in
  if (n <? 8)%nat then sum_onto 0 a
  else if (n <=? 128)%nat then block_sum a
  else
    match fuel with
    | O => block_sum a
    | S fuel' =>
        let n2 := (n / 2)%nat in
        let n2 := (n2 - n2 mod 8)%nat in
        pairwise_sum fuel' (firstn n2 a) + pairwise_sum fuel' (skipn n2 a)
    end.

(** [np.add.reduce]: the identity, then the pairwise sum of the array (the
    array is longer than the recursion is deep, so the fuel never runs out). *)
Definition np_sum (a : list npfloat) : npfloat :=
  0 + pairwise_sum (List.length a) a.

(** The count of the rows as a float64. *)
Definition float_of_nat (n : nat) : npfloat :=
  of_uint63 (Uint63.of_Z (Z.of_nat n)).

(** [np.mean] of a one-dimensional array: the sum divided by the count; on
    the empty array that is [0 / 0], NaN. *)
Definition np_mean (a : list npfloat) : npfloat :=
  np_sum a / float_of_nat (List.length a).

(** [np.maximum(a, c)] on one entry: [a] when [a >= c] or [a] is NaN. *)
Definition maximum (a c : npfloat) : npfloat :=
  if (c <=? a) || is_nan a then a else c.

Definition np_maximum (a : list npfloat) (c : npfloat) : list npfloat :=
  map (fun d => maximum d c) a.

(** [distances[:, j]]: an [IndexError] when a row has no index [j]. *)
Fixpoint column (j : nat) (a : list (list npfloat)) : result (list npfloat) :=
  match a with
  | [] => Ok []
  | row :: t =>
      match nth_error row j with
      | Some d => l <- column j t ;; Ok (d :: l)
      | None => Raise IndexError
      end
  end.

(* ------------------------------------------------------------------ *)
(** ** The calculator (lines 43-74) *)

Section Calculator.

(** Lines 58-59, the call into the library, which the [try] guards. *)
Variable search : list point -> result (list (list npfloat)).

Definition calculate_with (df_cell_foci : DataFrame)
  : result (npfloat * npfloat * nat) :=
  coords <- xy_values df_cell_foci ;;
  let n_foci := List.length coords in
  if (n_foci =? 1)%nat then Ok (nan, nan, 1%nat)
  else if (2 <=? n_foci)%nat then
    match (distances <- search coords ;; column 1 distances) with
    | Ok nnds =>
        let avg_nnd := np_mean nnds in
        let nnds_no_zero := np_maximum nnds EPSILON in
        let inverse_nnds := map (fun d => 1 / d) nnds_no_zero in
        let avg_inv_nnd := np_mean inverse_nnds in
        Ok (avg_nnd, avg_inv_nnd, n_foci)
    | Raise _ => Ok (nan, nan, n_foci)
    end
  else Ok (nan, nan, 0%nat).

End Calculator.

Definition calculate_nnd_metrics_for_cell (df_cell_foci : DataFrame)
  : result (npfloat * npfloat * nat) :=
  calculate_with (NearestNeighbors_fit_kneighbors 2) df_cell_foci.

(** A frame with exactly the two coordinate columns. *)
Definition frame_of (pts : list point) : DataFrame :=
  mkDataFrame [X_COL; Y_COL] (map (fun p => mkRow (fst p) (snd p) "") pts).

Local Close Scope float_scope.

(* ------------------------------------------------------------------ *)
(** ** The batch loop of [process_folder_gui] (lines 82-228) *)

Local Open Scope string_scope.

Definition OUTPUT_PREFIX : string := "NND_Summary_Results_".

(** One row of the summary table, with the output column names. *)
Record SummaryRow : Type := mkSummary {
  Identifier : string;
  Label : string;
  Avg_NND : npfloat;
  Avg_Inverse_NND : npfloat;
  NumFoci : Z
}.

(** An entry of [csv_files]: the file's name ([Path(filepath).name]) and what
    [pd.read_csv(filepath)] does on it. *)
Record csv_file : Type := mkFile {
  name : string;
  read_csv : result DataFrame
}.

(** [str.rfind(".")], counted from [pos]. *)
Fixpoint rfind_dot (s : string) (pos : nat) : option nat :=
  match s with
  | EmptyString => None
  | String c t =>
      match rfind_dot t (S pos) with
      | Some i => Some i
      | None => if Ascii.eqb c "." then Some pos else None
      end
  end.

(** [Path.stem]: the name without its last suffix. *)
Definition stem (filename : string) : string :=
  match rfind_dot filename 0 with
  | Some i =>
      if ((0 <? i) && (i <? String.length filename - 1))%nat
      then substring 0 i filename
      else filename
  | None => filename
  end.

Definition startswith (s p : string) : bool := prefix p s.

Definition output_filename (timestamp : string) : string :=
  OUTPUT_PREFIX ++ timestamp ++ ".csv".

Definition df_empty (df : DataFrame) : bool :=
  match columns df, rows df with
  | [], _ | _, [] => true
  | _, _ => false
  end.

(** Lines 142-154. *)
Definition label_of (df : DataFrame) : string :=
  if has_column LABEL_COL_INPUT df && negb (df_empty df)
  then match rows df with r :: _ => row_Label r | [] => "N/A" end
  else "N/A".

(** The body of the [try] (lines 133-173): [Ok None] is the [continue] of
    line 139, [Ok (Some row)] the row appended at line 164. *)
Definition try_body (identifier : string) (f : csv_file)
  : result (option SummaryRow) :=
  df_foci <- read_csv f ;;
  if negb (has_column X_COL df_foci) || negb (has_column Y_COL df_foci)
  then Ok None
  else
    let label_value := label_of df_foci in
    r <- (if (List.length (rows df_foci) <? 1)%nat
          then Ok (nan, nan, 0%nat)
          else calculate_nnd_metrics_for_cell df_foci) ;;
    let '(avg_nnd, avg_inv_nnd, num_foci) := r in
    Ok (Some (mkSummary identifier label_value avg_nnd avg_inv_nnd
                        (Z.of_nat num_foci))).

Definition empty_file_row (identifier : string) : SummaryRow :=
  mkSummary identifier "Empty File" nan nan 0%Z.

Definition error_row (identifier : string) : SummaryRow :=
  mkSummary identifier "Processing Error" nan nan (-1)%Z.

(** The loop state: [all_results] and [processed_count]. *)
Record loop_state : Type := mkState {
  all_results : list SummaryRow;
  processed_count : nat
}.

(** One iteration of [for filepath in csv_files] (lines 120-198). *)
Definition loop_body (st : loop_state) (f : csv_file) : loop_state :=
  let filename := name f in
  let identifier := stem filename in
  if startswith filename OUTPUT_PREFIX then st
  else
    match try_body identifier f with
    | Ok None => st
    | Ok (Some row) =>
        mkState (all_results st ++ [row]) (S (processed_count st))
    | Raise EmptyDataError =>
        mkState (all_results st ++ [empty_file_row identifier])
                (processed_count st)
    | Raise _ =>
        mkState (all_results st ++ [error_row identifier])
                (processed_count st)
    end.

(** A unit-level processing fault: the file is not skipped by its name and the
    body of the [try] raises an exception that reaches [except Exception]
    (line 186).  The [EmptyDataError] of an empty file does not: its handler
    (line 175) records the file as a unit of zero points. *)
Definition unit_fault (f : csv_file) : Prop :=
  startswith (name f) OUTPUT_PREFIX = false /\
  exists e, try_body (stem (name f)) f = Raise e /\ e <> EmptyDataError.

Definition run_loop (csv_files : list csv_file) : loop_state :=
  fold_left loop_body csv_files (mkState [] 0).

(** What a run is given: whether the folder exists, the clock, the sorted
    [glob] of the folder, and whether the table can be written. *)
Record run_input : Type := mkRun {
  is_dir : bool;
  timestamp : string;
  csv_files : list csv_file;
  to_csv_ok : bool
}.

Inductive run_outcome : Type :=
| InvalidFolder
| NoCsvFiles
| NoResults
| Saved (filename : string) (table : list SummaryRow) (processed : nat)
| SaveFailed (table : list SummaryRow) (processed : nat).

Definition process_folder_gui (inp : run_input) : run_outcome :=
  if negb (is_dir inp) then InvalidFolder
  else
    match csv_files inp with
    | [] => NoCsvFiles
    | _ =>
        let st := run_loop (csv_files inp) in
        match all_results st with
        | [] => NoResults
        | _ =>
            if to_csv_ok inp
            then Saved (output_filename (timestamp inp))
                       (all_results st) (processed_count st)
            else SaveFailed (all_results st) (processed_count st)
        end
    end.

(** The rows a run put in its table, and the count it reports. *)
Definition table_of (o : run_outcome) : list SummaryRow :=
  match o with
  | Saved _ t _ | SaveFailed t _ => t
  | _ => []
  end.

Definition processed_of (o : run_outcome) : nat :=
  match o with
  | Saved _ _ n | SaveFailed _ n => n
  | _ => 0%nat
  end.

Local Close Scope string_scope.

(* ------------------------------------------------------------------ *)
(** ** The generator of synthetic point patterns ([Make_synthetic_roi.py])

    The two functions below only clip their entries and drop the fraction
    (and, in the second, halve and add whole numbers); coordinates are
    rationals here: every finite float is one, and these operations are exact
    on them.  The draws of [np.random.normal] are an argument. *)

Definition PUNCTA_RADIUS_PIXELS : Z := 2.

(** [np.clip(a, a_min, a_max)]: [minimum(a_max, maximum(a, a_min))]. *)
Definition np_clip (a a_min a_max : Q) : Q := Qmin (Qmax a a_min) a_max.

(** [astype(int)] on one entry: the fraction is dropped, toward zero. *)
Definition astype_int (a : Q) : Z := Z.quot (Qnum a) (Z.pos (Qden a)).

(** The two [np.clip] lines shared by the generators: column 0 is Y and is
    clipped by the height, column 1 is X and is clipped by the width. *)
Definition clip_to_image (img_shape : Z * Z) (row : Q * Q) : Q * Q :=
  (np_clip (fst row) (inject_Z PUNCTA_RADIUS_PIXELS)
           (inject_Z (fst img_shape - 1 - PUNCTA_RADIUS_PIXELS)),
   np_clip (snd row) (inject_Z PUNCTA_RADIUS_PIXELS)
           (inject_Z (snd img_shape - 1 - PUNCTA_RADIUS_PIXELS))).

Definition rows_astype_int (coords : list (Q * Q)) : list (Z * Z) :=
  map (fun row => (astype_int (fst row), astype_int (snd row))) coords.


(** Lines 57-71. *)
Definition generate_two_points_fixed_distance
  (img_shape : Z * Z) (distance_pixels : Q) : list (Z * Z) :=
  let center_y := (inject_Z (fst img_shape) / 2)%Q in
  let center_x := (inject_Z (snd img_shape) / 2)%Q in
  let p1_x := (center_x - distance_pixels / 2)%Q in
  let p2_x := (center_x + distance_pixels / 2)%Q in
  let p1_y := center_y in
  let p2_y := center_y in
  rows_astype_int (map (clip_to_image img_shape) [(p1_y, p1_x); (p2_y, p2_x)]).


(* ------------------------------------------------------------------ *)
(** ** The vocabulary of the properties *)

Definition origin : point := (0%float, 0%float).

(** [d] is the computed distance from point [i] of [pts] to its nearest other
    point: it is the distance to some point of another index, and no point of
    another index is closer. *)
Definition nearest_other_distance (pts : list point) (i : nat) (d : npfloat)
  : Prop :=
  (exists j, (j < List.length pts)%nat /\ j <> i /\
             d = euclidean (nth i pts origin) (nth j pts origin)) /\
  (forall j, (j < List.length pts)%nat -> j <> i ->
             (d <=? euclidean (nth i pts origin) (nth j pts origin))%float
             = true).

(** Moving [p] toward the centre [c] by the factor [s], in binary64. *)
Definition scale_toward (c : point) (s : npfloat) (p : point) : point :=
  ((fst c + s * (fst p - fst c))%float, (snd c + s * (snd p - snd c))%float).

(** The nearest-neighbour distances the calculator averages, one per point. *)
Definition nnds_of (pts : list point) : list npfloat :=
  map (fun q => nth 1 (sort_ascending (map (euclidean q) pts)) 0%float) pts.

Definition inverse_of (ds : list npfloat) : list npfloat :=
  map (fun d => (1 / maximum d EPSILON)%float) ds.

(** Zero, a positive number or plus infinity: not NaN, no sign bit. *)
Definition SF_nonneg (x : spec_float) : bool :=
  match x with
  | S754_zero false | S754_infinity false | S754_finite false _ _ => true
  | _ => false
  end.

Definition nonneg (x : npfloat) : bool := SF_nonneg (Prim2SF x).

(** The sign of a value that is not NaN. *)
Definition SF_signed (s : bool) (x : spec_float) : Prop :=
  match x with
  | S754_zero s' | S754_infinity s' | S754_finite s' _ _ => s' = s
  | S754_nan => False
  end.

(** The order of the sorted rows. *)
Definition fle (x y : npfloat) : Prop := (x <=? y)%float = true.

Definition all_nonneg (l : list npfloat) : Prop :=
  Forall (fun z => nonneg z = true) l.


Definition avg_inv_nnd_of (r : result (npfloat * npfloat * nat)) : npfloat :=
  match r with Ok (_, b, _) => b | Raise _ => nan end.

(** The number 2 as a binary64: mantissa [2^52], exponent [-51]. *)
Definition SF_two : spec_float := S754_finite false 4503599627370496 (-51).

(** What one file adds to the table, and to the count of processed files. *)
Definition rows_of_file (f : csv_file) : list SummaryRow :=
  all_results (loop_body (mkState [] 0) f).

Definition counted (f : csv_file) : nat :=
  processed_count (loop_body (mkState [] 0) f).

(** The file is not skipped by its name and the body of the [try] raises. *)
Definition raises (f : csv_file) : bool :=
  negb (startswith (name f) OUTPUT_PREFIX) &&
  match try_body (stem (name f)) f with
  | Raise _ => true
  | Ok _ => false
  end.

(** The file leaves no row: it is skipped by its name, or it was read and
    lacks a coordinate column. *)
Definition leaves_no_row (f : csv_file) : bool :=
  startswith (name f) OUTPUT_PREFIX ||
  match read_csv f with
  | Ok df => negb (has_column X_COL df) || negb (has_column Y_COL df)
  | Raise _ => false
  end.

(** The file is not skipped by its name, is read, and has both coordinate
    columns. *)
Definition readable (f : csv_file) : bool :=
  negb (startswith (name f) OUTPUT_PREFIX) &&
  match read_csv f with
  | Ok df => has_column X_COL df && has_column Y_COL df
  | Raise _ => false
  end.

(* ------------------------------------------------------------------ *)
(** * Properties *)

(** ** Rounding never yields NaN and keeps the sign *)

Unset Implicit Arguments.

Section Rounding.

Lemma shr_1_nonneg (mrs : shr_record) :
  (0 <= shr_m mrs)%Z -> (0 <= shr_m (shr_1 mrs))%Z.
Proof.
  destruct mrs as [m r s]. cbn [shr_m].
  destruct m as [|p|p]; [| destruct p |]; cbn; lia.
Qed.

Lemma iter_shr_1_nonneg (p : positive) (mrs : shr_record) :
  (0 <= shr_m mrs)%Z -> (0 <= shr_m (SpecFloat.iter_pos shr_1 p mrs))%Z.
Proof.
  revert mrs. induction p as [p IH|p IH|]; intros mrs H; cbn [SpecFloat.iter_pos].
  - apply IH, IH, shr_1_nonneg, H.
  - apply IH, IH, H.
  - apply shr_1_nonneg, H.
Qed.

Lemma shr_fexp_nonneg (m e : Z) (l : location) :
  (0 <= m)%Z -> (0 <= shr_m (fst (shr_fexp prec emax m e l)))%Z.
Proof.
  intros H. unfold shr_fexp, shr.
  assert (H0 : (0 <= shr_m (shr_record_of_loc m l))%Z)
    by (destruct l as [|[]]; exact H).
  destruct (fexp prec emax (Zdigits2 m + e) - e)%Z; cbn [fst]; try exact H0.
  now apply iter_shr_1_nonneg.
Qed.

Lemma round_nearest_even_nonneg (m : Z) (l : location) :
  (0 <= m)%Z -> (0 <= round_nearest_even m l)%Z.
Proof.
  intros H. unfold round_nearest_even.
  destruct l as [|[]]; try destruct (Z.even m); lia.
Qed.

Lemma binary_round_aux_signed (s : bool) (m e : Z) (l : location) :
  (0 <= m)%Z -> SF_signed s (binary_round_aux prec emax s m e l).
Proof.
  intros H. unfold binary_round_aux.
  pose proof (shr_fexp_nonneg m e l H) as H1.
  destruct (shr_fexp prec emax m e l) as [mrs' e']. cbn [fst] in H1.
  pose proof (shr_fexp_nonneg _ e' loc_Exact
                (round_nearest_even_nonneg _ (loc_of_shr_record mrs') H1)) as H2.
  destruct (shr_fexp prec emax
              (round_nearest_even (shr_m mrs') (loc_of_shr_record mrs')) e'
              loc_Exact) as [mrs'' e''].
  cbn [fst] in H2.
  destruct (shr_m mrs'') as [|p|p]; [reflexivity| |lia].
  destruct (e'' <=? emax - prec)%Z; reflexivity.
Qed.

Lemma binary_round_signed (s : bool) (m : positive) (e : Z) :
  SF_signed s (binary_round prec emax s m e).
Proof.
  unfold binary_round.
  destruct (shl_align m e (fexp prec emax (Z.pos (digits2_pos m) + e))) as [mz ez].
  now apply binary_round_aux_signed.
Qed.

Lemma binary_normalize_not_nan (z e : Z) (sz : bool) :
  binary_normalize prec emax z e sz <> S754_nan.
Proof.
  destruct z as [|p|p]; cbn [binary_normalize]; [discriminate| |].
  - pose proof (binary_round_signed false p e) as H.
    intros E. rewrite E in H. exact H.
  - pose proof (binary_round_signed true p e) as H.
    intros E. rewrite E in H. exact H.
Qed.

Lemma signed_false_nonneg (x : spec_float) :
  SF_signed false x -> SF_nonneg x = true.
Proof. destruct x as [[]|[]| |[] m e]; cbn; intros H; congruence || tauto. Qed.

Lemma binary_normalize_nonneg (z e : Z) :
  (0 <= z)%Z -> SF_nonneg (binary_normalize prec emax z e false) = true.
Proof.
  destruct z as [|p|p]; intros H; cbn [binary_normalize]; [reflexivity| |lia].
  apply signed_false_nonneg, binary_round_signed.
Qed.

End Rounding.

Section Closure.

Lemma SFmul_square_nonneg (x : spec_float) :
  x <> S754_nan -> SF_nonneg (SF64mul x x) = true.
Proof.
  intros H. destruct x as [s|s| |s m e]; [| |congruence|].
  - cbn. now destruct s.
  - cbn. now destruct s.
  - unfold SF64mul, SFmul. apply signed_false_nonneg.
    replace (xorb s s) with false by (now destruct s).
    apply binary_round_aux_signed. lia.
Qed.

Lemma SFadd_nonneg (x y : spec_float) :
  SF_nonneg x = true -> SF_nonneg y = true -> SF_nonneg (SF64add x y) = true.
Proof.
  destruct x as [[]|[]| |[] mx ex]; try discriminate;
    destruct y as [[]|[]| |[] my ey]; try discriminate; intros _ _;
    try reflexivity.
  unfold SF64add, SFadd. cbn [cond_Zopp].
  apply binary_normalize_nonneg. lia.
Qed.

Lemma SFsqrt_nonneg (x : spec_float) :
  SF_nonneg x = true -> SF_nonneg (SF64sqrt x) = true.
Proof.
  destruct x as [[]|[]| |[] m e]; try discriminate; intros _;
    try reflexivity.
  unfold SF64sqrt, SFsqrt, SFsqrt_core_binary.
  set (m' := match (e - 2 * _)%Z with Z.pos _ => _ | Z0 => _ | Z.neg _ => _ end).
  pose proof (Z.sqrtrem_sqrt m') as Hq.
  destruct (Z.sqrtrem m') as [q r]. cbn [fst] in Hq.
  apply signed_false_nonneg, binary_round_aux_signed.
  rewrite Hq. apply Z.sqrt_nonneg.
Qed.

Lemma SFsub_finite_not_nan (x y : spec_float) :
  SF_finite x = true -> SF_finite y = true -> SF64sub x y <> S754_nan.
Proof.
  destruct x as [sx|sx| |sx mx ex]; try discriminate;
    destruct y as [sy|sy| |sy my ey]; try discriminate; intros _ _;
    unfold SF64sub, SFsub.
  - destruct sx, sy; cbn; discriminate.
  - apply binary_normalize_not_nan.
Qed.

Lemma SFsub_self (x : spec_float) :
  SF_finite x = true -> SF64sub x x = S754_zero false.
Proof.
  destruct x as [s|s| |s m e]; try discriminate; intros _.
  - now destruct s.
  - unfold SF64sub, SFsub. now rewrite Z.sub_diag.
Qed.

Lemma SFdiv_nonneg (x y : spec_float) :
  SF_nonneg x = true -> SF_nonneg y = true ->
  SF_finite x || SF_finite y = true ->
  (match x, y with S754_zero _, S754_zero _ => false | _, _ => true end) = true ->
  SF_nonneg (SF64div x y) = true.
Proof.
  destruct x as [[]|[]| |[] mx ex]; try discriminate;
    destruct y as [[]|[]| |[] my ey]; try discriminate; intros _ _ Hf Hz;
    try discriminate; try reflexivity.
  unfold SF64div, SFdiv, SFdiv_core_binary.
  set (m' := match (_ - _ - _)%Z with Z.pos _ => _ | Z0 => _ | Z.neg _ => _ end).
  assert (Hm : (0 <= m')%Z).
  { unfold m'. destruct (_ - _ - _)%Z; try lia.
    apply Z.shiftl_nonneg. lia. }
  pose proof (Z.div_eucl_eq m' (Z.pos my) ltac:(lia)) as Hd.
  pose proof (Z.mod_pos_bound m' (Z.pos my) ltac:(lia)) as Hr.
  unfold Z.modulo in Hr.
  destruct (Z.div_eucl m' (Z.pos my)) as [q r].
  cbn [xorb]. apply signed_false_nonneg, binary_round_aux_signed. nia.
Qed.

End Closure.

Section Order.

Lemma SFleb_finite_iff (m1 m2 : positive) (e1 e2 : Z) :
  SFleb (S754_finite false m1 e1) (S754_finite false m2 e2) = true <->
  (e1 < e2 \/ (e1 = e2 /\ (m1 <= m2)%positive))%Z.
Proof.
  unfold SFleb, SFcompare. fold (Pos.compare m1 m2).
  destruct (Z.compare_spec e1 e2) as [E|E|E].
  - destruct (Pos.compare_spec m1 m2) as [M|M|M]; split; intros H;
      try discriminate; try reflexivity; try lia.
  - split; [lia|reflexivity].
  - split; [discriminate|lia].
Qed.

Lemma SFleb_total (x y : spec_float) :
  SF_nonneg x = true -> SF_nonneg y = true ->
  SFleb x y = true \/ SFleb y x = true.
Proof.
  destruct x as [[]|[]| |[] m1 e1]; try discriminate;
    destruct y as [[]|[]| |[] m2 e2]; try discriminate; intros _ _;
    try (left; reflexivity); try (right; reflexivity).
  rewrite !SFleb_finite_iff. lia.
Qed.

Lemma SFleb_trans (x y z : spec_float) :
  SF_nonneg x = true -> SF_nonneg y = true -> SF_nonneg z = true ->
  SFleb x y = true -> SFleb y z = true -> SFleb x z = true.
Proof.
  destruct x as [[]|[]| |[] m1 e1]; try discriminate;
    destruct y as [[]|[]| |[] m2 e2]; try discriminate;
    destruct z as [[]|[]| |[] m3 e3]; try discriminate; intros _ _ _;
    try reflexivity; try discriminate; try (intros; assumption).
  rewrite !SFleb_finite_iff. lia.
Qed.

Lemma SFleb_antisym (x y : spec_float) :
  SF_nonneg x = true -> SF_nonneg y = true ->
  SFleb x y = true -> SFleb y x = true -> x = y.
Proof.
  destruct x as [[]|[]| |[] m1 e1]; try discriminate;
    destruct y as [[]|[]| |[] m2 e2]; try discriminate; intros _ _;
    try reflexivity; try discriminate.
  rewrite !SFleb_finite_iff. intros H1 H2.
  assert (e1 = e2) by lia. assert (m1 = m2) by lia. now subst.
Qed.

Lemma SFleb_zero_least (y : spec_float) :
  SF_nonneg y = true -> SFleb (S754_zero false) y = true.
Proof. destruct y as [[]|[]| |[] m e]; try discriminate; reflexivity. Qed.

Lemma SFcompare_refl (x : spec_float) :
  x <> S754_nan -> SFcompare x x = Some Eq.
Proof.
  destruct x as [s|s| |s m e]; intros H; [reflexivity| |congruence|].
  - now destruct s.
  - unfold SFcompare. fold (Pos.compare m m).
    rewrite Z.compare_refl, Pos.compare_refl. now destruct s.
Qed.

Lemma SFleb_refl (x : spec_float) : SF_nonneg x = true -> SFleb x x = true.
Proof.
  intros H. destruct (SFleb_total x x H H); assumption.
Qed.

End Order.

(** ** The same facts on the primitive floats *)

Section OnFloats.

Local Open Scope float_scope.

Lemma leb_total (x y : float) :
  nonneg x = true -> nonneg y = true -> (x <=? y) = true \/ (y <=? x) = true.
Proof. intros Hx Hy. rewrite !FloatAxioms.leb_spec. now apply SFleb_total. Qed.

Lemma leb_trans (x y z : float) :
  nonneg x = true -> nonneg y = true -> nonneg z = true ->
  (x <=? y) = true -> (y <=? z) = true -> (x <=? z) = true.
Proof. intros Hx Hy Hz. rewrite !FloatAxioms.leb_spec. now apply SFleb_trans. Qed.

Lemma leb_antisym (x y : float) :
  nonneg x = true -> nonneg y = true ->
  (x <=? y) = true -> (y <=? x) = true -> x = y.
Proof.
  intros Hx Hy H1 H2. rewrite FloatAxioms.leb_spec in H1, H2. apply Prim2SF_inj.
  now apply SFleb_antisym.
Qed.

Lemma leb_zero_least (y : float) : nonneg y = true -> (0 <=? y) = true.
Proof. intros H. rewrite FloatAxioms.leb_spec. now apply SFleb_zero_least. Qed.

Lemma leb_refl (x : float) : nonneg x = true -> (x <=? x) = true.
Proof. intros H. rewrite FloatAxioms.leb_spec. now apply SFleb_refl. Qed.

Lemma is_nan_spec (x : float) :
  is_nan x = match Prim2SF x with S754_nan => true | _ => false end.
Proof.
  unfold is_nan. rewrite FloatAxioms.eqb_spec. unfold SFeqb.
  destruct (Prim2SF x) as [s|s| |s m e] eqn:E; try reflexivity;
    rewrite SFcompare_refl by discriminate; reflexivity.
Qed.

Lemma nonneg_not_nan (x : float) : nonneg x = true -> is_nan x = false.
Proof.
  unfold nonneg. intros H. rewrite is_nan_spec.
  destruct (Prim2SF x); try reflexivity. discriminate.
Qed.

Lemma add_nonneg (x y : float) :
  nonneg x = true -> nonneg y = true -> nonneg (x + y) = true.
Proof. unfold nonneg. intros Hx Hy. rewrite add_spec. now apply SFadd_nonneg. Qed.

Lemma sqrt_nonneg (x : float) : nonneg x = true -> nonneg (PrimFloat.sqrt x) = true.
Proof. unfold nonneg. intros H. rewrite sqrt_spec. now apply SFsqrt_nonneg. Qed.

Lemma square_nonneg (x : float) : is_nan x = false -> nonneg (x * x) = true.
Proof.
  intros H. rewrite is_nan_spec in H. unfold nonneg. rewrite mul_spec.
  apply SFmul_square_nonneg. intros E. rewrite E in H. discriminate.
Qed.

Lemma sub_finite_not_nan (x y : float) :
  isfinite x = true -> isfinite y = true -> is_nan (x - y) = false.
Proof.
  unfold isfinite. intros Hx Hy.
  pose proof (SFsub_finite_not_nan _ _ Hx Hy) as H. rewrite <- sub_spec in H.
  rewrite is_nan_spec. destruct (Prim2SF (x - y)); congruence.
Qed.

Lemma sub_self (x : float) : isfinite x = true -> x - x = 0.
Proof.
  intros H. apply Prim2SF_inj. rewrite sub_spec.
  now rewrite (SFsub_self _ H).
Qed.

Lemma add_zero_l (x : float) : nonneg x = true -> 0 + x = x.
Proof.
  intros H. apply Prim2SF_inj. rewrite add_spec. unfold nonneg in H.
  change (Prim2SF 0) with (S754_zero false).
  destruct (Prim2SF x) as [[]|[]| |[] m e]; try discriminate; reflexivity.
Qed.

End OnFloats.


(** ** Quotients, the clamp and the count *)

Unset Implicit Arguments.

Section MoreFloats.

Local Open Scope float_scope.

Lemma EPSILON_nonneg : nonneg EPSILON = true.
Proof. reflexivity. Qed.

Lemma maximum_nonneg (d : float) :
  nonneg d = true -> nonneg (maximum d EPSILON) = true.
Proof.
  intros H. unfold maximum.
  destruct ((EPSILON <=? d) || is_nan d); [exact H|apply EPSILON_nonneg].
Qed.

Lemma inverse_nonneg (m : float) : nonneg m = true -> nonneg (1 / m) = true.
Proof.
  unfold nonneg. intros H. rewrite div_spec.
  change (Prim2SF 1) with (S754_finite false 4503599627370496 (-52)).
  apply SFdiv_nonneg; try reflexivity. exact H.
Qed.

Lemma div_by_positive_nonneg (s c : float) (m : positive) (e : Z) :
  nonneg s = true -> Prim2SF c = S754_finite false m e ->
  nonneg (s / c) = true.
Proof.
  unfold nonneg. intros H Hc. rewrite div_spec, Hc.
  apply SFdiv_nonneg; try reflexivity; try exact H.
  - apply orb_true_r.
  - now destruct (Prim2SF s).
Qed.

End MoreFloats.

Section Count.

Lemma digits2_pos_lower (p : positive) :
  (2 ^ (Z.pos (digits2_pos p) - 1) <= Z.pos p)%Z.
Proof.
  induction p as [p IH|p IH|]; cbn [digits2_pos]; [| |cbn; lia];
    rewrite Pos2Z.inj_succ;
    replace (Z.succ (Z.pos (digits2_pos p)) - 1)%Z
      with (Z.succ (Z.pos (digits2_pos p) - 1))%Z by lia;
    rewrite Z.pow_succ_r by lia; lia.
Qed.

Lemma digits2_pos_small (p : positive) :
  (Z.pos p < 2 ^ 53)%Z -> (Z.pos (digits2_pos p) <= 53)%Z.
Proof.
  intros H. pose proof (digits2_pos_lower p) as L.
  destruct (Z.le_gt_cases (Z.pos (digits2_pos p)) 53) as [|G]; [assumption|].
  assert (2 ^ 53 <= 2 ^ (Z.pos (digits2_pos p) - 1))%Z
    by (apply Z.pow_le_mono_r; lia).
  lia.
Qed.

Lemma digits2_pos_iter_xO (p k : positive) :
  digits2_pos (Pos.iter xO p k) = (digits2_pos p + k)%positive.
Proof.
  induction k as [|k IH] using Pos.peano_ind.
  - cbn. lia.
  - rewrite Pos.iter_succ. cbn [digits2_pos]. rewrite IH. lia.
Qed.

(** A mantissa that is already in place comes out of the rounding as is. *)
Lemma binary_round_aux_canonical (s : bool) (m : positive) (e : Z) :
  fexp prec emax (Z.pos (digits2_pos m) + e) = e ->
  (e <=? emax - prec)%Z = true ->
  binary_round_aux prec emax s (Z.pos m) e loc_Exact = S754_finite s m e.
Proof.
  intros Hf He. unfold binary_round_aux, shr_fexp.
  cbn [Zdigits2 shr_record_of_loc]. rewrite Hf, Z.sub_diag.
  cbn [shr shr_m loc_of_shr_record round_nearest_even Zdigits2
       shr_record_of_loc].
  rewrite Hf, Z.sub_diag. cbn [shr shr_m]. now rewrite He.
Qed.

(** A count between 1 and 2^53 is a positive finite float. *)
Lemma float_of_nat_positive (n : nat) :
  (1 <= n)%nat -> (Z.of_nat n < 2 ^ 53)%Z ->
  exists m e, Prim2SF (float_of_nat n) = S754_finite false m e.
Proof.
  intros H1 H2. unfold float_of_nat. rewrite of_uint63_spec.
  rewrite Uint63.of_Z_spec.
  rewrite Z.mod_small
    by (split; [lia|]; eapply Z.lt_trans; [exact H2|reflexivity]).
  destruct (Z.of_nat n) as [|p|p] eqn:E; try lia.
  cbn [binary_normalize]. unfold binary_round.
  pose proof (digits2_pos_small p H2) as Hd.
  assert (Hfe : fexp prec emax (Z.pos (digits2_pos p) + 0)
                = (Z.pos (digits2_pos p) - 53)%Z).
  { unfold fexp, SpecFloat.emin, prec, emax. lia. }
  rewrite Hfe. unfold shl_align.
  destruct (Z.pos (digits2_pos p) - 53 - 0)%Z as [|k|k] eqn:Ek; try lia.
  - exists p, 0%Z. apply binary_round_aux_canonical; [|reflexivity].
    rewrite Hfe. lia.
  - exists (Pos.iter xO p k), (Z.pos (digits2_pos p) - 53)%Z.
    apply binary_round_aux_canonical.
    + rewrite digits2_pos_iter_xO. unfold fexp, SpecFloat.emin, prec, emax. lia.
    + unfold emax, prec. apply Z.leb_le. lia.
Qed.

End Count.

Set Implicit Arguments.

(** ** The square of a difference does not depend on the order *)

Unset Implicit Arguments.

Section SquareOfDifference.

Lemma binary_round_aux_opp (s : bool) (m e : Z) (l : location) :
  binary_round_aux prec emax (negb s) m e l =
  SFopp (binary_round_aux prec emax s m e l).
Proof.
  unfold binary_round_aux.
  destruct (shr_fexp prec emax m e l) as [mrs' e'].
  destruct (shr_fexp prec emax _ e' loc_Exact) as [mrs'' e''].
  destruct (shr_m mrs''); cbn [SFopp]; try reflexivity.
  destruct (e'' <=? emax - prec)%Z; reflexivity.
Qed.

Lemma binary_round_opp (s : bool) (m : positive) (e : Z) :
  binary_round prec emax (negb s) m e = SFopp (binary_round prec emax s m e).
Proof.
  unfold binary_round.
  destruct (shl_align m e (fexp prec emax (Z.pos (digits2_pos m) + e))).
  apply binary_round_aux_opp.
Qed.

Lemma binary_normalize_opp (z e : Z) :
  binary_normalize prec emax (- z) e false =
  match z with
  | Z0 => S754_zero false
  | _ => SFopp (binary_normalize prec emax z e false)
  end.
Proof.
  destruct z as [|p|p]; cbn [Z.opp binary_normalize]; [reflexivity| |].
  - exact (binary_round_opp false p e).
  - pose proof (binary_round_opp false p e) as H. cbn [negb] in H.
    rewrite H. now destruct (binary_round prec emax false p e) as [[]|[]| |[] ? ?].
Qed.

Lemma SFmul_opp_opp (u : spec_float) :
  SF64mul (SFopp u) (SFopp u) = SF64mul u u.
Proof.
  destruct u as [s|s| |s m e]; try reflexivity; now destruct s.
Qed.

Lemma SFsub_swap (x y : spec_float) :
  SF_finite x = true -> SF_finite y = true ->
  SF64sub y x = SF64sub x y \/ SF64sub y x = SFopp (SF64sub x y).
Proof.
  destruct x as [sx|sx| |sx mx ex]; try discriminate;
    destruct y as [sy|sy| |sy my ey]; try discriminate; intros _ _.
  - destruct sx, sy; cbn; auto.
  - right. cbn. now rewrite negb_involutive.
  - right. reflexivity.
  - unfold SF64sub, SFsub. rewrite (Z.min_comm ey ex).
    set (a := cond_Zopp sx _). set (b := cond_Zopp sy _).
    replace (b - a)%Z with (- (a - b))%Z by lia.
    rewrite binary_normalize_opp.
    destruct (a - b)%Z; auto.
Qed.

Lemma SFsquare_diff_sym (x y : spec_float) :
  SF_finite x = true -> SF_finite y = true ->
  SF64mul (SF64sub y x) (SF64sub y x) = SF64mul (SF64sub x y) (SF64sub x y).
Proof.
  intros Hx Hy. destruct (SFsub_swap x y Hx Hy) as [->| ->];
    [reflexivity|apply SFmul_opp_opp].
Qed.

Lemma square_diff_sym (x y : float) :
  isfinite x = true -> isfinite y = true ->
  ((y - x) * (y - x) = (x - y) * (x - y))%float.
Proof.
  intros Hx Hy. apply Prim2SF_inj. rewrite !mul_spec, !sub_spec.
  now apply SFsquare_diff_sym.
Qed.

End SquareOfDifference.

Set Implicit Arguments.

(** ** Sorting rows of non-negative numbers *)

Section SortFacts.

Local Open Scope float_scope.

Lemma insert_sorted_perm (x : npfloat) (l : list npfloat) :
  Permutation (x :: l) (insert_sorted x l).
Proof.
  induction l as [|y t IH]; simpl.
  - apply Permutation_refl.
  - destruct (x <=? y).
    + apply Permutation_refl.
    + apply perm_trans with (y :: x :: t).
      * apply perm_swap.
      * apply perm_skip, IH.
Qed.

Lemma sort_ascending_perm (l : list npfloat) :
  Permutation l (sort_ascending l).
Proof.
  induction l as [|x t IH]; simpl.
  - constructor.
  - apply perm_trans with (x :: sort_ascending t).
    + apply perm_skip, IH.
    + apply insert_sorted_perm.
Qed.

Lemma sort_ascending_length (l : list npfloat) :
  List.length (sort_ascending l) = List.length l.
Proof. symmetry. apply Permutation_length, sort_ascending_perm. Qed.

Lemma all_nonneg_perm (l l' : list npfloat) :
  Permutation l l' -> all_nonneg l -> all_nonneg l'.
Proof. unfold all_nonneg. apply Permutation_Forall. Qed.

Lemma all_nonneg_in (l : list npfloat) (x : npfloat) :
  all_nonneg l -> In x l -> nonneg x = true.
Proof. unfold all_nonneg. rewrite Forall_forall. auto. Qed.

Lemma insert_sorted_sorted (x : npfloat) (l : list npfloat) :
  nonneg x = true -> all_nonneg l ->
  StronglySorted fle l -> StronglySorted fle (insert_sorted x l).
Proof.
  intros Hx. induction l as [|y t IH]; simpl; intros Hl Hs.
  - constructor; constructor.
  - inversion Hs as [|? ? Ht Hy]; subst.
    inversion Hl as [|? ? Hny Hnt]; subst.
    destruct (x <=? y) eqn:Hxy.
    + constructor; [assumption|].
      constructor; [exact Hxy|].
      rewrite Forall_forall in *. intros z Hz.
      apply (leb_trans x y z); auto. apply Hy, Hz.
    + constructor; [apply IH; assumption|].
      eapply Permutation_Forall; [apply insert_sorted_perm|].
      constructor; [|assumption].
      destruct (leb_total x y Hx Hny) as [H|H]; [congruence|exact H].
Qed.

Lemma sort_ascending_sorted (l : list npfloat) :
  all_nonneg l -> StronglySorted fle (sort_ascending l).
Proof.
  induction l as [|x t IH]; simpl; intros Hl.
  - constructor.
  - inversion Hl; subst. apply insert_sorted_sorted; auto.
    eapply all_nonneg_perm; [apply sort_ascending_perm|assumption].
Qed.

Lemma sorted_perm_eq (l l' : list npfloat) :
  all_nonneg l ->
  StronglySorted fle l -> StronglySorted fle l' -> Permutation l l' -> l = l'.
Proof.
  revert l'. induction l as [|a t IH]; intros l' Hn Hs Hs' Hp.
  - apply Permutation_nil in Hp. now subst.
  - destruct l' as [|b t'].
    + apply Permutation_sym, Permutation_nil in Hp. discriminate.
    + pose proof (all_nonneg_perm Hp Hn) as Hn'.
      inversion Hs as [|? ? Ht Ha]; subst.
      inversion Hs' as [|? ? Ht' Hb]; subst.
      inversion Hn as [|? ? Hna Hnt]; subst.
      inversion Hn' as [|? ? Hnb Hnt']; subst.
      assert (Hab : fle a b).
      { assert (Hin : In b (a :: t))
          by (eapply Permutation_in; [apply Permutation_sym, Hp|now left]).
        destruct Hin as [->|Hin]; [now apply leb_refl|].
        rewrite Forall_forall in Ha. now apply Ha. }
      assert (Hba : fle b a).
      { assert (Hin : In a (b :: t'))
          by (eapply Permutation_in; [apply Hp|now left]).
        destruct Hin as [->|Hin]; [now apply leb_refl|].
        rewrite Forall_forall in Hb. now apply Hb. }
      assert (a = b) by (now apply leb_antisym). subst b.
      f_equal. apply IH; try assumption.
      eapply Permutation_cons_inv; eauto.
Qed.

(** The sorted row depends on the entries only, not on their order. *)
Lemma sort_ascending_perm_eq (l l' : list npfloat) :
  all_nonneg l -> Permutation l l' -> sort_ascending l = sort_ascending l'.
Proof.
  intros Hn Hp. apply sorted_perm_eq.
  - eapply all_nonneg_perm; [apply sort_ascending_perm|assumption].
  - now apply sort_ascending_sorted.
  - apply sort_ascending_sorted. eapply all_nonneg_perm; eassumption.
  - eapply perm_trans; [apply Permutation_sym, sort_ascending_perm|].
    eapply perm_trans; [exact Hp|apply sort_ascending_perm].
Qed.

(** The head of a sorted row is a least entry of it. *)
Lemma sort_ascending_head (l : list npfloat) (m : npfloat) (t : list npfloat) :
  all_nonneg l ->
  sort_ascending l = m :: t -> In m l /\ (forall x, In x l -> fle m x).
Proof.
  intros Hn E. pose proof (sort_ascending_perm l) as Hp.
  pose proof (sort_ascending_sorted Hn) as Hs. rewrite E in Hp, Hs.
  assert (Hm : In m l)
    by (eapply Permutation_in; [apply Permutation_sym, Hp|now left]).
  split; [exact Hm|].
  intros x Hx. apply (Permutation_in _ Hp) in Hx.
  inversion Hs as [|? ? _ Hall]; subst.
  destruct Hx as [->|Hx]; [apply leb_refl; eapply all_nonneg_in; eassumption|].
  rewrite Forall_forall in Hall. now apply Hall.
Qed.

End SortFacts.

(** ** The second entry of a sorted row of distances *)

Section SecondSmallest.

Local Open Scope float_scope.

Lemma in_others (l1 l2 : list npfloat) (a x : npfloat) :
  In x (l1 ++ l2) <->
  exists j, (j < List.length (l1 ++ a :: l2))%nat /\ j <> List.length l1 /\
            x = nth j (l1 ++ a :: l2) 0.
Proof.
  split.
  - intros Hin. apply in_app_or in Hin. destruct Hin as [Hin|Hin].
    + destruct (In_nth _ _ 0 Hin) as [j [Hj Hx]].
      exists j. rewrite length_app. simpl. repeat split; try lia.
      rewrite app_nth1 by assumption. now symmetry.
    + destruct (In_nth _ _ 0 Hin) as [j [Hj Hx]].
      exists (S (List.length l1 + j)). rewrite length_app. simpl.
      repeat split; try lia.
      rewrite app_nth2 by lia.
      replace (S (List.length l1 + j) - List.length l1)%nat with (S j) by lia.
      simpl. now symmetry.
  - intros [j [Hj [Hne Hx]]]. subst x. rewrite length_app in Hj. simpl in Hj.
    apply in_or_app.
    destruct (Nat.lt_ge_cases j (List.length l1)) as [Hlt|Hge].
    + left. rewrite app_nth1 by assumption. now apply nth_In.
    + right. rewrite app_nth2 by assumption.
      destruct (j - List.length l1)%nat as [|k] eqn:E; [lia|].
      simpl. apply nth_In. lia.
Qed.

(** In a row of non-negative numbers whose entry [i] is zero, the second
    entry of the sorted row is the least of the other entries. *)
Lemma second_of_sorted (l : list npfloat) (i : nat) :
  all_nonneg l ->
  (2 <= List.length l)%nat -> (i < List.length l)%nat ->
  nth i l 0 = 0 ->
  let m := nth 1 (sort_ascending l) 0 in
  (exists j, (j < List.length l)%nat /\ j <> i /\ m = nth j l 0) /\
  (forall j, (j < List.length l)%nat -> j <> i -> fle m (nth j l 0)).
Proof.
  intros Hn Hlen Hi Hz m.
  destruct (nth_split l 0 Hi) as [l1 [l2 [El Hl1]]]. rewrite Hz in El.
  assert (Hperm : Permutation l (0 :: l1 ++ l2)).
  { rewrite El. apply Permutation_sym, Permutation_middle. }
  assert (Hsort : sort_ascending l = insert_sorted 0 (sort_ascending (l1 ++ l2))).
  { rewrite (sort_ascending_perm_eq Hn Hperm). reflexivity. }
  assert (Hn' : all_nonneg (l1 ++ l2)).
  { pose proof (all_nonneg_perm Hperm Hn) as H. now inversion H. }
  destruct (sort_ascending (l1 ++ l2)) as [|a t] eqn:Es.
  { apply (f_equal (@List.length npfloat)) in Es.
    rewrite sort_ascending_length, length_app in Es.
    rewrite El, length_app in Hlen. simpl in *. lia. }
  destruct (sort_ascending_head Hn' Es) as [Hin Hmin].
  assert (Ha : (0 <=? a) = true)
    by (apply leb_zero_least; eapply all_nonneg_in; eassumption).
  assert (Em : m = a).
  { unfold m. rewrite Hsort. simpl. now rewrite Ha. }
  rewrite Em. subst i. split.
  - apply (in_others l1 l2 0) in Hin. rewrite <- El in Hin. exact Hin.
  - intros j Hj Hne. apply Hmin.
    apply (in_others l1 l2 0). rewrite <- El. now exists j.
Qed.

End SecondSmallest.

(** ** Doubling and halving are exact *)

Unset Implicit Arguments.

Section Halving.

Lemma binary_round_aux_even (s : bool) (m : positive) (e : Z) :
  fexp prec emax (Z.pos (digits2_pos m~0) + e) = (e + 1)%Z ->
  binary_round_aux prec emax s (Z.pos m~0) e loc_Exact =
  if (e + 1 <=? emax - prec)%Z then S754_finite s m (e + 1)
  else S754_infinity s.
Proof.
  intros Hf.
  assert (Hf' : fexp prec emax (Z.pos (digits2_pos m) + (e + 1)) = (e + 1)%Z).
  { rewrite <- Hf at 2. f_equal. cbn [digits2_pos]. lia. }
  unfold binary_round_aux, shr_fexp.
  cbn [Zdigits2 shr_record_of_loc]. rewrite Hf.
  replace (e + 1 - e)%Z with 1%Z by lia.
  cbn [shr SpecFloat.iter_pos shr_1 shr_m shr_r shr_s orb loc_of_shr_record
       round_nearest_even Zdigits2 shr_record_of_loc].
  rewrite Hf', Z.sub_diag. cbn [shr shr_m]. reflexivity.
Qed.

Lemma div_eucl_exact (q b : Z) :
  (0 < b)%Z -> Z.div_eucl (q * b) b = (q, 0%Z).
Proof.
  intros Hb. destruct (Z.div_eucl (q * b) b) as [q' r'] eqn:E.
  assert (Hq : q' = (q * b / b)%Z) by (unfold Z.div; now rewrite E).
  assert (Hr : r' = ((q * b) mod b)%Z) by (unfold Z.modulo; now rewrite E).
  rewrite Z.div_mul in Hq by lia. rewrite Z.mod_mul in Hr by lia.
  now subst.
Qed.

Lemma SFdiv_core_two (m1 : positive) (e1 e' : Z) (s : positive) (q : Z) :
  Z.min (fexp prec emax (Z.pos (digits2_pos m1) + e1 - 2)) (e1 + 51) = e' ->
  (e1 + 51 - e' = Z.pos s)%Z ->
  (Z.pos m1 * 2 ^ Z.pos s = q * 4503599627370496)%Z ->
  SFdiv_core_binary prec emax (Z.pos m1) e1 4503599627370496 (-51) =
  (q, e', loc_Exact).
Proof.
  intros He' Hs Hq. unfold SFdiv_core_binary. cbn [Zdigits2].
  change (Z.pos (digits2_pos 4503599627370496)) with 53%Z.
  replace (Z.pos (digits2_pos m1) + e1 - (53 + -51))%Z
    with (Z.pos (digits2_pos m1) + e1 - 2)%Z by lia.
  replace (e1 - -51)%Z with (e1 + 51)%Z by lia.
  rewrite He', Hs. rewrite Z.shiftl_mul_pow2 by lia. rewrite Hq.
  rewrite div_eucl_exact by lia. reflexivity.
Qed.

Lemma SF_double (m : positive) (e : Z) :
  bounded prec emax m e = true ->
  SF64add (S754_finite false m e) (S754_finite false m e) =
  if (SpecFloat.emin prec emax <=? Z.pos (digits2_pos m) + e - prec)%Z
  then if (e + 1 <=? emax - prec)%Z then S754_finite false m (e + 1)
       else S754_infinity false
  else S754_finite false m~0 e.
Proof.
  unfold bounded, canonical_mantissa. intros H.
  apply andb_prop in H. destruct H as [Hc He]. apply Z.eqb_eq in Hc.
  unfold SF64add, SFadd. rewrite Z.min_id. unfold shl_align at 1 2.
  rewrite Z.sub_diag. cbn [fst cond_Zopp].
  replace (Z.pos m + Z.pos m)%Z with (Z.pos m~0) by lia.
  cbn [binary_normalize]. unfold binary_round.
  destruct (Z.leb_spec (SpecFloat.emin prec emax)
                       (Z.pos (digits2_pos m) + e - prec)) as [Hn|Hn].
  - assert (Hf : fexp prec emax (Z.pos (digits2_pos m~0) + e) = (e + 1)%Z).
    { cbn [digits2_pos]. unfold fexp in *. lia. }
    rewrite Hf. unfold shl_align. replace (e + 1 - e)%Z with 1%Z by lia.
    now apply binary_round_aux_even.
  - assert (Hf : fexp prec emax (Z.pos (digits2_pos m~0) + e) = e).
    { cbn [digits2_pos]. unfold fexp in *. lia. }
    rewrite Hf. unfold shl_align. rewrite Z.sub_diag.
    now apply binary_round_aux_canonical.
Qed.

Lemma SF_halve_double (m : positive) (e : Z) :
  bounded prec emax m e = true ->
  SF_finite (SF64add (S754_finite false m e) (S754_finite false m e)) = true ->
  SF64div (SF64add (S754_finite false m e) (S754_finite false m e)) SF_two =
  S754_finite false m e.
Proof.
  intros Hb. rewrite (SF_double m e Hb).
  unfold bounded, canonical_mantissa in Hb.
  apply andb_prop in Hb. destruct Hb as [Hc He]. apply Z.eqb_eq in Hc.
  pose proof He as He'. apply Z.leb_le in He'.
  destruct (Z.leb_spec (SpecFloat.emin prec emax)
                       (Z.pos (digits2_pos m) + e - prec)) as [Hn|Hn].
  - destruct (Z.leb_spec (e + 1) (emax - prec)) as [Ho|Ho]; [|discriminate].
    intros _. unfold SF64div, SFdiv, SF_two. cbn [xorb].
    assert (Hd : (Z.pos (digits2_pos m) = prec)%Z) by (unfold fexp in Hc; lia).
    destruct (Z.eq_dec e (SpecFloat.emin prec emax)) as [Ee|Ne].
    + rewrite (SFdiv_core_two m (e + 1) e 52 (Z.pos m)).
      * now apply binary_round_aux_canonical.
      * rewrite Hd. unfold fexp, SpecFloat.emin, prec, emax in *. lia.
      * lia.
      * reflexivity.
    + rewrite (SFdiv_core_two m (e + 1) (e - 1) 53 (Z.pos m~0)).
      * rewrite binary_round_aux_even.
        -- replace (e - 1 + 1)%Z with e by lia. now rewrite He.
        -- cbn [digits2_pos]. rewrite Pos2Z.inj_succ, Hd.
           unfold fexp, SpecFloat.emin, prec, emax in *. lia.
      * rewrite Hd. unfold fexp, SpecFloat.emin, prec, emax in *. lia.
      * lia.
      * lia.
  - intros _. unfold SF64div, SFdiv, SF_two. cbn [xorb].
    assert (Ee : e = SpecFloat.emin prec emax) by (unfold fexp in Hc; lia).
    rewrite (SFdiv_core_two m~0 e e 51 (Z.pos m)).
    + now apply binary_round_aux_canonical.
    + cbn [digits2_pos]. rewrite Pos2Z.inj_succ.
      unfold fexp, SpecFloat.emin, prec, emax in *. lia.
    + lia.
    + lia.
Qed.

Lemma halve_double (x : float) :
  nonneg x = true -> isfinite (x + x) = true -> ((x + x) / 2 = x)%float.
Proof.
  unfold nonneg, isfinite. intros Hx Hf. apply Prim2SF_inj.
  rewrite div_spec. rewrite add_spec in *.
  pose proof (Prim2SF_valid x) as Hv.
  change (Prim2SF 2) with SF_two.
  destruct (Prim2SF x) as [[]|[]| |[] m e]; try discriminate.
  - reflexivity.
  - now apply SF_halve_double.
Qed.

End Halving.

(** ** The exponent of a rounded value *)

Section Exponents.

Lemma digits2_pos_upper (p : positive) :
  (Z.pos p < 2 ^ Z.pos (digits2_pos p))%Z.
Proof.
  induction p as [p IH|p IH|]; cbn [digits2_pos]; [| |cbn; lia];
    rewrite Pos2Z.inj_succ, Z.pow_succ_r by lia; lia.
Qed.

Lemma Zdigits2_nonneg (m : Z) : (0 <= Zdigits2 m)%Z.
Proof. destruct m; cbn; lia. Qed.

Lemma Zdigits2_bound (m k : Z) :
  (0 <= k)%Z -> (0 <= m < 2 ^ k)%Z -> (Zdigits2 m <= k)%Z.
Proof.
  intros Hk [H0 H]. destruct m as [|p|p]; cbn [Zdigits2]; try lia.
  pose proof (digits2_pos_lower p) as L.
  destruct (Z.le_gt_cases (Z.pos (digits2_pos p)) k) as [|G]; [assumption|].
  assert (2 ^ k <= 2 ^ (Z.pos (digits2_pos p) - 1))%Z
    by (apply Z.pow_le_mono_r; lia).
  lia.
Qed.

Lemma Zdigits2_upper (m : Z) : (0 <= m)%Z -> (m < 2 ^ Zdigits2 m)%Z.
Proof.
  intros H. destruct m as [|p|p]; cbn [Zdigits2]; try lia.
  apply digits2_pos_upper.
Qed.

Lemma Zdigits2_le (a b : Z) :
  (0 <= a <= b)%Z -> (Zdigits2 a <= Zdigits2 b)%Z.
Proof.
  intros [H0 H]. apply Zdigits2_bound; [apply Zdigits2_nonneg|].
  split; [exact H0|]. pose proof (Zdigits2_upper b). lia.
Qed.

Lemma Zdigits2_succ (m : Z) :
  (0 <= m)%Z -> (Zdigits2 (m + 1) <= Zdigits2 m + 1)%Z.
Proof.
  intros H. pose proof (Zdigits2_nonneg m) as Hd.
  apply Zdigits2_bound; [lia|]. split; [lia|].
  pose proof (Zdigits2_upper m H) as Hu.
  rewrite Z.pow_add_r by lia. change (2 ^ 1)%Z with 2%Z. lia.
Qed.

Lemma Zdigits2_shiftl (m : Z) (s : positive) :
  (0 <= m)%Z -> (Zdigits2 (Z.shiftl m (Z.pos s)) <= Zdigits2 m + Z.pos s)%Z.
Proof.
  intros H. pose proof (Zdigits2_nonneg m) as Hd.
  rewrite Z.shiftl_mul_pow2 by lia.
  pose proof (Zdigits2_upper m H) as Hu.
  assert (Hp : (0 < 2 ^ Z.pos s)%Z) by (apply Z.pow_pos_nonneg; lia).
  apply Zdigits2_bound; [lia|]. split; [nia|].
  rewrite Z.pow_add_r by lia. nia.
Qed.

Lemma shr_1_digits (mrs : shr_record) :
  (0 <= shr_m mrs)%Z ->
  Zdigits2 (shr_m (shr_1 mrs)) = Z.max 0 (Zdigits2 (shr_m mrs) - 1).
Proof.
  destruct mrs as [m r s]. cbn [shr_m]. intros H.
  destruct m as [|[p|p|]|p]; cbn [shr_1 shr_m Zdigits2 digits2_pos]; lia.
Qed.

Lemma iter_shr_1_digits (n : positive) :
  forall mrs : shr_record,
  (0 <= shr_m mrs)%Z ->
  Zdigits2 (shr_m (SpecFloat.iter_pos shr_1 n mrs)) =
  Z.max 0 (Zdigits2 (shr_m mrs) - Z.pos n).
Proof.
  induction n as [n IH|n IH|]; intros mrs H; cbn [SpecFloat.iter_pos].
  - rewrite IH, IH, shr_1_digits
      by (repeat apply iter_shr_1_nonneg; try apply shr_1_nonneg; exact H).
    lia.
  - rewrite IH, IH by (repeat apply iter_shr_1_nonneg; exact H). lia.
  - now apply shr_1_digits.
Qed.

Lemma shr_m_of_loc (m : Z) (l : location) : shr_m (shr_record_of_loc m l) = m.
Proof. now destruct l as [|[]]. Qed.

(** What the first shift of the rounding leaves: a mantissa of at most
    [prec] digits, at the larger of the two exponents. *)
Lemma shr_fexp_spec (m e : Z) (l : location) :
  (0 <= m)%Z ->
  (0 <= shr_m (fst (shr_fexp prec emax m e l)))%Z /\
  snd (shr_fexp prec emax m e l) = Z.max e (fexp prec emax (Zdigits2 m + e)) /\
  (Zdigits2 (shr_m (fst (shr_fexp prec emax m e l))) <= prec)%Z.
Proof.
  intros H. split; [now apply shr_fexp_nonneg|].
  unfold shr_fexp, shr.
  pose proof (shr_m_of_loc m l) as Hm.
  destruct (fexp prec emax (Zdigits2 m + e) - e)%Z as [|n|n] eqn:En;
    cbn [fst snd].
  - rewrite Hm. unfold fexp, SpecFloat.emin, prec, emax in *. split; lia.
  - rewrite iter_shr_1_digits by (rewrite Hm; exact H).
    rewrite Hm. unfold fexp, SpecFloat.emin, prec, emax in *. split; lia.
  - rewrite Hm. unfold fexp, SpecFloat.emin, prec, emax in *. split; lia.
Qed.

Lemma round_nearest_even_digits (m : Z) (l : location) :
  (0 <= m)%Z -> (Zdigits2 (round_nearest_even m l) <= Zdigits2 m + 1)%Z.
Proof.
  intros H. pose proof (Zdigits2_succ m H) as Hs.
  unfold round_nearest_even.
  destruct l as [|[]]; try destruct (Z.even m); lia.
Qed.

(** The exponent of a rounded value is at most one more than the larger of
    the exponent given and the exponent of the format at this magnitude. *)
Lemma binary_round_aux_exponent
  (s : bool) (m e : Z) (l : location) (s' : bool) (m' : positive) (e' : Z) :
  (0 <= m)%Z ->
  binary_round_aux prec emax s m e l = S754_finite s' m' e' ->
  (e' <= Z.max e (fexp prec emax (Zdigits2 m + e)) + 1)%Z.
Proof.
  intros H. unfold binary_round_aux.
  destruct (shr_fexp_spec m e l H) as [H1 [H2 H3]].
  destruct (shr_fexp prec emax m e l) as [mrs1 e1]. cbn [fst snd] in *.
  pose proof (round_nearest_even_nonneg _ (loc_of_shr_record mrs1) H1) as Hr.
  pose proof (round_nearest_even_digits _ (loc_of_shr_record mrs1) H1) as Hd.
  destruct (shr_fexp_spec _ e1 loc_Exact Hr) as [_ [H5 _]].
  destruct (shr_fexp prec emax
              (round_nearest_even (shr_m mrs1) (loc_of_shr_record mrs1))
              e1 loc_Exact) as [mrs2 e2].
  cbn [fst snd] in *.
  destruct (shr_m mrs2); try discriminate.
  destruct (e2 <=? emax - prec)%Z; try discriminate.
  intros E. injection E as _ _ <-.
  subst e1 e2. unfold fexp, SpecFloat.emin, prec, emax in *. lia.
Qed.

(** The inverse of a number that is at least [2^-82 * 2^52]. *)
Lemma SFdiv_one_exponent (my : positive) (ey : Z) (s' : bool) (m' : positive) (e' : Z) :
  (-82 <= ey)%Z ->
  SF64div (S754_finite false 4503599627370496 (-52)) (S754_finite false my ey)
  = S754_finite s' m' e' ->
  (e' <= 31)%Z.
Proof.
  intros Hey. unfold SF64div, SFdiv, SFdiv_core_binary. cbn [xorb Zdigits2].
  change (Z.pos (digits2_pos 4503599627370496)) with 53%Z.
  set (ez := Z.min _ _).
  assert (Hez : (ez <= -52 - ey)%Z) by (unfold ez; lia).
  set (mz := match (-52 - ey - ez)%Z with
             | 0%Z => 4503599627370496%Z
             | Z.pos _ => Z.shiftl 4503599627370496 (-52 - ey - ez)
             | Z.neg _ => 0%Z
             end).
  assert (Hmz : (0 <= mz)%Z /\ (Zdigits2 mz + ez <= 1 - ey)%Z).
  { unfold mz. destruct (-52 - ey - ez)%Z as [|k|k] eqn:Ek.
    - split; [lia|]. change (Zdigits2 4503599627370496) with 53%Z. lia.
    - split; [apply Z.shiftl_nonneg; lia|].
      pose proof (Zdigits2_shiftl 4503599627370496 k ltac:(lia)) as Hs.
      change (Zdigits2 4503599627370496) with 53%Z in Hs. lia.
    - split; [lia|]. cbn [Zdigits2]. lia. }
  destruct Hmz as [Hmz0 Hmzd].
  destruct (Z.div_eucl mz (Z.pos my)) as [q r] eqn:Eq.
  assert (Hq : q = (mz / Z.pos my)%Z) by (unfold Z.div; now rewrite Eq).
  assert (Hq0 : (0 <= q <= mz)%Z).
  { subst q. split; [apply Z.div_pos; lia|].
    apply Z.div_le_upper_bound; [lia|]. nia. }
  intros E. apply binary_round_aux_exponent in E; [|lia].
  pose proof (Zdigits2_le q mz Hq0) as Hd.
  unfold fexp, SpecFloat.emin, prec, emax in *. lia.
Qed.

(** The exponent of a square root is far from the largest one. *)
Lemma SFsqrt_exponent (mx : positive) (ex : Z) (s' : bool) (m' : positive) (e' : Z) :
  bounded prec emax mx ex = true ->
  SF64sqrt (S754_finite false mx ex) = S754_finite s' m' e' ->
  (e' + 1 <= emax - prec)%Z.
Proof.
  unfold bounded, canonical_mantissa. intros Hb.
  apply andb_prop in Hb. destruct Hb as [Hc He].
  apply Z.eqb_eq in Hc. apply Z.leb_le in He.
  unfold SF64sqrt, SFsqrt, SFsqrt_core_binary. cbn [Zdigits2].
  set (d := Z.pos (digits2_pos mx)) in *.
  assert (Hd : (1 <= d <= 53)%Z).
  { unfold d. split; [lia|]. unfold fexp, SpecFloat.emin, prec, emax in Hc. lia. }
  assert (Hex : (-1074 <= ex <= 971)%Z).
  { unfold fexp, SpecFloat.emin, prec, emax in *. lia. }
  set (ez := Z.min _ _).
  assert (Hez : (ez <= 485 /\ d + ex - ez <= 566)%Z).
  { unfold ez. rewrite !Z.div2_div.
    unfold fexp, SpecFloat.emin, prec, emax.
    Z.to_euclidean_division_equations. lia. }
  set (mz := match (ex - 2 * ez)%Z with
             | 0%Z => Z.pos mx
             | Z.pos _ => Z.shiftl (Z.pos mx) (ex - 2 * ez)
             | Z.neg _ => 0%Z
             end).
  assert (Hmz : (0 <= mz)%Z /\ (Zdigits2 mz + ez <= 566)%Z).
  { unfold mz. destruct (ex - 2 * ez)%Z as [|k|k] eqn:Ek.
    - split; [lia|]. cbn [Zdigits2]. fold d. lia.
    - split; [apply Z.shiftl_nonneg; lia|].
      pose proof (Zdigits2_shiftl (Z.pos mx) k ltac:(lia)) as Hs.
      change (Zdigits2 (Z.pos mx)) with d in Hs. lia.
    - split; [lia|]. cbn [Zdigits2]. lia. }
  destruct Hmz as [Hmz0 Hmzd].
  destruct (Z.sqrtrem mz) as [q r] eqn:Eq.
  assert (Hq : q = Z.sqrt mz).
  { pose proof (Z.sqrtrem_sqrt mz) as H. rewrite Eq in H. exact H. }
  assert (Hq0 : (0 <= q <= mz)%Z).
  { subst q. split; [apply Z.sqrt_nonneg|now apply Z.sqrt_le_lin]. }
  intros E. apply binary_round_aux_exponent in E; [|lia].
  pose proof (Zdigits2_le q mz Hq0) as Hdq.
  unfold fexp, SpecFloat.emin, prec, emax in *. lia.
Qed.

End Exponents.

Section ExactMeans.

Local Open Scope float_scope.

(** Doubling then halving gives the number back when its exponent is not
    the largest one; zero and infinity come back as well. *)
Lemma halve_double_small (x : float) :
  nonneg x = true ->
  (forall m e, Prim2SF x = S754_finite false m e -> (e + 1 <= emax - prec)%Z) ->
  (x + x) / 2 = x.
Proof.
  intros Hx He. pose proof (Prim2SF_valid x) as Hv.
  destruct (Prim2SF x) as [[]|[]| |[] m e] eqn:E;
    try (unfold nonneg in Hx; rewrite E in Hx; discriminate).
  - apply Prim2SF_inj. rewrite div_spec, add_spec, E. reflexivity.
  - apply Prim2SF_inj. rewrite div_spec, add_spec, E. reflexivity.
  - apply halve_double; [exact Hx|].
    unfold isfinite. rewrite add_spec, E.
    cbn [SpecFloat.valid_binary] in Hv. rewrite (SF_double m e Hv).
    specialize (He m e eq_refl). apply Z.leb_le in He. rewrite He.
    now destruct (SpecFloat.emin prec emax <=? Z.pos (digits2_pos m) + e - prec)%Z.
Qed.

(** The mean of a square root with itself is that square root. *)
Lemma sqrt_halve (y : float) :
  nonneg y = true ->
  (PrimFloat.sqrt y + PrimFloat.sqrt y) / 2 = PrimFloat.sqrt y.
Proof.
  intros Hy. apply halve_double_small; [now apply sqrt_nonneg|].
  intros m e E. rewrite sqrt_spec in E.
  pose proof (Prim2SF_valid y) as Hv. unfold nonneg in Hy.
  destruct (Prim2SF y) as [[]|[]| |[] my ey]; try discriminate.
  cbn [SpecFloat.valid_binary] in Hv.
  exact (SFsqrt_exponent my ey false m e Hv E).
Qed.

(** The mean of a clamped inverse with itself is that inverse. *)
Lemma inverse_halve (d : float) :
  nonneg d = true ->
  (1 / maximum d EPSILON + 1 / maximum d EPSILON) / 2 = 1 / maximum d EPSILON.
Proof.
  intros Hd. unfold maximum. rewrite (nonneg_not_nan d Hd), orb_false_r.
  destruct (EPSILON <=? d) eqn:Hle; [|reflexivity].
  apply halve_double_small; [apply inverse_nonneg, Hd|].
  intros m e E. rewrite div_spec in E.
  rewrite FloatAxioms.leb_spec in Hle. unfold nonneg in Hd.
  assert (HE : exists mE, Prim2SF EPSILON = S754_finite false mE (-82))
    by (eexists; vm_compute; reflexivity).
  destruct HE as [mE HE]. rewrite HE in Hle.
  change (Prim2SF 1) with (S754_finite false 4503599627370496 (-52)) in E.
  destruct (Prim2SF d) as [[]|[]| |[] my ey]; try discriminate.
  apply SFleb_finite_iff in Hle.
  assert (He : (e <= 31)%Z)
    by (apply (SFdiv_one_exponent my ey false m e); [lia|exact E]).
  unfold emax, prec. lia.
Qed.

End ExactMeans.

Set Implicit Arguments.


(** ** Sums of numbers of one kind *)

Section SumClosure.

Local Open Scope float_scope.

(** A property that zero has and that addition keeps. *)
Variable P : npfloat -> Prop.
Hypothesis P_zero : P 0.
Hypothesis P_add : forall x y, P x -> P y -> P (x + y).

Lemma sum_onto_closed (a : list npfloat) (r : npfloat) :
  P r -> Forall P a -> P (sum_onto r a).
Proof.
  unfold sum_onto. revert r.
  induction a as [|x t IH]; intros r Hr Ha; [exact Hr|].
  inversion Ha; subst. cbn [fold_left]. apply IH; [|assumption].
  now apply P_add.
Qed.

Lemma block_loop_closed (n : nat) :
  forall (a : list npfloat) (r0 r1 r2 r3 r4 r5 r6 r7 : npfloat),
  (List.length a <= n)%nat -> Forall P a ->
  P r0 -> P r1 -> P r2 -> P r3 -> P r4 -> P r5 -> P r6 -> P r7 ->
  let '(s0, s1, s2, s3, s4, s5, s6, s7, rest) :=
    block_loop (r0, r1, r2, r3, r4, r5, r6, r7) a in
  P (((s0 + s1) + (s2 + s3)) + ((s4 + s5) + (s6 + s7))) /\ Forall P rest.
Proof.
  induction n as [|n IH]; intros a r0 r1 r2 r3 r4 r5 r6 r7 Hlen Ha
                                 H0 H1 H2 H3 H4 H5 H6 H7;
    destruct a as [|a0 [|a1 [|a2 [|a3 [|a4 [|a5 [|a6 [|a7 t]]]]]]]];
    cbn [block_loop];
    try (split; [repeat apply P_add; assumption|exact Ha]);
    cbn [List.length] in Hlen; try lia.
  repeat match goal with
         | H : Forall _ (_ :: _) |- _ => inversion H; subst; clear H
         end.
  apply IH; try (apply P_add; assumption); try assumption. lia.
Qed.

Lemma block_sum_closed (a : list npfloat) : Forall P a -> P (block_sum a).
Proof.
  intros Ha. unfold block_sum.
  destruct a as [|a0 [|a1 [|a2 [|a3 [|a4 [|a5 [|a6 [|a7 t]]]]]]]];
    try (apply sum_onto_closed; [exact P_zero|exact Ha]).
  repeat match goal with
         | H : Forall _ (_ :: _) |- _ => inversion H; subst; clear H
         end.
  pose proof (@block_loop_closed (List.length t) t a0 a1 a2 a3 a4 a5 a6 a7) as H.
  destruct (block_loop (a0, a1, a2, a3, a4, a5, a6, a7) t)
    as [[[[[[[[s0 s1] s2] s3] s4] s5] s6] s7] rest].
  destruct H as [Hs Hr]; try assumption; [lia|].
  now apply sum_onto_closed.
Qed.

Lemma pairwise_sum_closed (fuel : nat) :
  forall a : list npfloat, Forall P a -> P (pairwise_sum fuel a).
Proof.
  induction fuel as [|fuel IH]; intros a Ha; cbn [pairwise_sum];
    destruct (List.length a <? 8)%nat;
    try (apply sum_onto_closed; [exact P_zero|exact Ha]);
    destruct (List.length a <=? 128)%nat;
    try (now apply block_sum_closed).
  set (n2 := (_ - _)%nat).
  assert (H : Forall P (firstn n2 a) /\ Forall P (skipn n2 a)).
  { rewrite <- Forall_app. now rewrite firstn_skipn. }
  destruct H as [H1 H2]. apply P_add; now apply IH.
Qed.

Lemma np_sum_closed (a : list npfloat) : Forall P a -> P (np_sum a).
Proof.
  intros Ha. unfold np_sum. apply P_add; [exact P_zero|].
  now apply pairwise_sum_closed.
Qed.

End SumClosure.

Section SumFacts.

Local Open Scope float_scope.

Lemma np_sum_nonneg (a : list npfloat) :
  all_nonneg a -> nonneg (np_sum a) = true.
Proof.
  apply (@np_sum_closed (fun x => nonneg x = true)); [reflexivity|].
  exact add_nonneg.
Qed.

(** The mean of non-negative numbers is a non-negative number: not NaN,
    possibly plus infinity. *)
Lemma np_mean_nonneg (a : list npfloat) :
  all_nonneg a -> (1 <= List.length a)%nat ->
  (Z.of_nat (List.length a) < 2 ^ 53)%Z ->
  nonneg (np_mean a) = true.
Proof.
  intros Ha H1 H2. unfold np_mean.
  destruct (float_of_nat_positive _ H1 H2) as [m [e E]].
  eapply div_by_positive_nonneg; [|exact E].
  now apply np_sum_nonneg.
Qed.



(** The mean of two equal numbers is that number, unless their sum
    overflows. *)
Lemma np_mean_pair (d : npfloat) :
  nonneg d = true -> np_mean [d; d] = (d + d) / 2.
Proof.
  intros Hd. unfold np_mean, np_sum. cbn [List.length pairwise_sum Nat.ltb Nat.leb].
  unfold sum_onto. cbn [fold_left].
  rewrite (add_zero_l d Hd).
  rewrite (add_zero_l (d + d)) by now apply add_nonneg.
  reflexivity.
Qed.

End SumFacts.

(** ** Distances between finite points *)

Section DistanceFacts.

Local Open Scope float_scope.

Lemma all_finite_in (pts : list point) (p : point) :
  all_finite pts = true -> In p pts ->
  isfinite (fst p) = true /\ isfinite (snd p) = true.
Proof.
  unfold all_finite. rewrite forallb_forall. intros H Hin.
  now apply andb_prop, H.
Qed.

Lemma all_finite_nth (pts : list point) (i : nat) :
  all_finite pts = true -> (i < List.length pts)%nat ->
  isfinite (fst (nth i pts origin)) = true /\
  isfinite (snd (nth i pts origin)) = true.
Proof. intros H Hi. apply (@all_finite_in pts _ H); now apply nth_In. Qed.

Lemma euclidean_nonneg (p q : point) :
  isfinite (fst p) = true -> isfinite (snd p) = true ->
  isfinite (fst q) = true -> isfinite (snd q) = true ->
  nonneg (euclidean p q) = true.
Proof.
  intros Hpx Hpy Hqx Hqy. unfold euclidean.
  apply sqrt_nonneg, add_nonneg; apply square_nonneg;
    now apply sub_finite_not_nan.
Qed.

Lemma euclidean_self (p : point) :
  isfinite (fst p) = true -> isfinite (snd p) = true -> euclidean p p = 0.
Proof.
  intros Hx Hy. unfold euclidean. rewrite (sub_self _ Hx), (sub_self _ Hy).
  reflexivity.
Qed.

Lemma euclidean_sym (p q : point) :
  isfinite (fst p) = true -> isfinite (snd p) = true ->
  isfinite (fst q) = true -> isfinite (snd q) = true ->
  euclidean p q = euclidean q p.
Proof.
  intros Hpx Hpy Hqx Hqy. unfold euclidean.
  rewrite (square_diff_sym (fst p) (fst q) Hpx Hqx).
  rewrite (square_diff_sym (snd p) (snd q) Hpy Hqy).
  reflexivity.
Qed.

Lemma row_nonneg (q : point) (pts : list point) :
  isfinite (fst q) = true -> isfinite (snd q) = true ->
  all_finite pts = true -> all_nonneg (map (euclidean q) pts).
Proof.
  intros Hx Hy Hf. apply Forall_forall. intros x Hin.
  apply in_map_iff in Hin. destruct Hin as [p [<- Hp]].
  destruct (@all_finite_in pts p Hf Hp). now apply euclidean_nonneg.
Qed.

End DistanceFacts.

(** ** The calculator on finite points *)

Section CalculatorFacts.

Local Open Scope float_scope.

Lemma check_array_finite (pts : list point) :
  all_finite pts = true -> check_array pts = Ok pts.
Proof. intros H. unfold check_array. now rewrite H. Qed.

Lemma check_array_not_finite (pts : list point) :
  all_finite pts = false -> check_array pts = Raise ValueError.
Proof. intros H. unfold check_array. now rewrite H. Qed.

Lemma column_kneighbors (fitted queries : list point) :
  (2 <= List.length fitted)%nat ->
  column 1 (kneighbors 2 fitted queries) =
  Ok (map (fun q => nth 1 (sort_ascending (map (euclidean q) fitted)) 0) queries).
Proof.
  intros Hlen. unfold kneighbors.
  induction queries as [|q t IH]; cbn [map column]; [reflexivity|].
  rewrite IH. cbn [map].
  assert (Hl : List.length (sort_ascending (map (euclidean q) fitted)) =
               List.length fitted)
    by (rewrite sort_ascending_length; apply length_map).
  destruct (sort_ascending (map (euclidean q) fitted)) as [|a [|b r]];
    simpl in Hl; try lia.
  reflexivity.
Qed.

Lemma length_nnds_of (pts : list point) :
  List.length (nnds_of pts) = List.length pts.
Proof. apply length_map. Qed.

Lemma length_inverse_of (ds : list npfloat) :
  List.length (inverse_of ds) = List.length ds.
Proof. apply length_map. Qed.

(** With at least two rows the search succeeds exactly on finite
    coordinates, and the calculator then returns the two means. *)
Lemma calculate_finite (df : DataFrame) (pts : list point) :
  xy_values df = Ok pts -> all_finite pts = true ->
  (2 <= List.length pts)%nat ->
  calculate_nnd_metrics_for_cell df =
  Ok (np_mean (nnds_of pts), np_mean (inverse_of (nnds_of pts)),
      List.length pts).
Proof.
  intros Hxy Hf Hlen.
  unfold calculate_nnd_metrics_for_cell, calculate_with.
  rewrite Hxy. cbn [bind].
  destruct (Nat.eqb_spec (List.length pts) 1) as [E|_]; [lia|].
  destruct (Nat.leb_spec 2 (List.length pts)) as [_|E]; [|lia].
  unfold NearestNeighbors_fit_kneighbors.
  rewrite (@check_array_finite _ Hf). cbn [bind].
  destruct (Nat.ltb_spec (List.length pts) 2) as [E|_]; [lia|].
  cbn [bind]. rewrite column_kneighbors by assumption.
  fold (nnds_of pts). unfold np_maximum. rewrite map_map.
  reflexivity.
Qed.

(** Fewer than two rows: NaN metrics and the count, for every search. *)
Lemma calculate_small (df : DataFrame) (pts : list point) :
  xy_values df = Ok pts ->
  (List.length pts < 2)%nat ->
  calculate_nnd_metrics_for_cell df = Ok (nan, nan, List.length pts).
Proof.
  intros Hxy Hlen. unfold calculate_nnd_metrics_for_cell, calculate_with.
  rewrite Hxy. cbn [bind].
  destruct (List.length pts) as [|[|n]]; [reflexivity|reflexivity|lia].
Qed.

(** With a non-finite coordinate the search raises and the metrics are NaN. *)
Lemma calculate_not_finite (df : DataFrame) (pts : list point) :
  xy_values df = Ok pts ->
  all_finite pts = false ->
  calculate_nnd_metrics_for_cell df = Ok (nan, nan, List.length pts).
Proof.
  intros Hxy Hf.
  destruct (Nat.lt_ge_cases (List.length pts) 2) as [Hlt|Hge];
    [now apply calculate_small|].
  unfold calculate_nnd_metrics_for_cell, calculate_with.
  rewrite Hxy. cbn [bind].
  destruct (Nat.eqb_spec (List.length pts) 1) as [E|_]; [lia|].
  destruct (Nat.leb_spec 2 (List.length pts)) as [_|E]; [|lia].
  unfold NearestNeighbors_fit_kneighbors.
  rewrite (@check_array_not_finite _ Hf). reflexivity.
Qed.

(** With both coordinate columns the calculator answers, and counts the rows. *)
Lemma calculate_ok (df : DataFrame) :
  has_column X_COL df && has_column Y_COL df = true ->
  exists avg inv,
    calculate_nnd_metrics_for_cell df = Ok (avg, inv, List.length (rows df)).
Proof.
  intros H.
  assert (Hxy : xy_values df = Ok (map (fun r => (row_X r, row_Y r)) (rows df)))
    by (unfold xy_values; now rewrite H).
  rewrite <- (length_map (fun r => (row_X r, row_Y r)) (rows df)).
  set (pts := map (fun r => (row_X r, row_Y r)) (rows df)) in *.
  destruct (all_finite pts) eqn:Hf.
  - destruct (Nat.lt_ge_cases (List.length pts) 2) as [Hlt|Hge].
    + eexists _, _. now apply calculate_small.
    + eexists _, _. now apply calculate_finite.
  - eexists _, _. now apply calculate_not_finite.
Qed.

Lemma nth_nnds_of (pts : list point) (i : nat) :
  (i < List.length pts)%nat ->
  nth i (nnds_of pts) 0 =
  nth 1 (sort_ascending (map (euclidean (nth i pts origin)) pts)) 0.
Proof.
  intros Hi. unfold nnds_of.
  set (g := fun q => nth 1 (sort_ascending (map (euclidean q) pts)) 0).
  rewrite (nth_indep _ 0 (g origin)) by (rewrite length_map; exact Hi).
  apply (map_nth g).
Qed.

Lemma nth_row (p : point) (pts : list point) (j : nat) :
  (j < List.length pts)%nat ->
  nth j (map (euclidean p) pts) 0 = euclidean p (nth j pts origin).
Proof.
  intros Hj.
  rewrite (nth_indep _ 0 (euclidean p origin)) by (rewrite length_map; exact Hj).
  apply map_nth.
Qed.

(** Each entry of [nnds_of] is the distance to the nearest other point. *)
Lemma nnds_of_nearest (pts : list point) (i : nat) :
  all_finite pts = true ->
  (2 <= List.length pts)%nat -> (i < List.length pts)%nat ->
  nearest_other_distance pts i (nth i (nnds_of pts) 0).
Proof.
  intros Hf Hlen Hi. rewrite (@nth_nnds_of pts i Hi).
  unfold nearest_other_distance. set (p := nth i pts origin).
  destruct (@all_finite_nth pts i Hf Hi) as [Hpx Hpy]. fold p in Hpx, Hpy.
  destruct (@second_of_sorted (map (euclidean p) pts) i)
    as [[j [Hj [Hne Ej]]] Hmin].
  - now apply row_nonneg.
  - rewrite length_map. exact Hlen.
  - rewrite length_map. exact Hi.
  - rewrite nth_row by exact Hi. now apply euclidean_self.
  - rewrite length_map in Hj. split.
    + exists j. repeat split; try assumption.
      rewrite Ej. now apply nth_row.
    + intros k Hk Hnk. specialize (Hmin k).
      rewrite length_map in Hmin. rewrite <- (@nth_row p pts k Hk).
      now apply Hmin.
Qed.

(** The nearest distances of finite points are non-negative numbers. *)
Lemma nnds_of_nonneg (pts : list point) :
  all_finite pts = true -> (2 <= List.length pts)%nat ->
  all_nonneg (nnds_of pts).
Proof.
  intros Hf Hlen. apply Forall_forall. intros d Hd.
  destruct (In_nth _ _ 0 Hd) as [i [Hi <-]].
  rewrite length_nnds_of in Hi.
  destruct (@nnds_of_nearest pts i Hf Hlen Hi) as [[j [Hj [_ ->]]] _].
  destruct (@all_finite_nth pts i Hf Hi), (@all_finite_nth pts j Hf Hj).
  now apply euclidean_nonneg.
Qed.

Lemma inverse_of_nonneg (ds : list npfloat) :
  all_nonneg ds -> all_nonneg (inverse_of ds).
Proof.
  intros H. apply Forall_forall. intros v Hv.
  apply in_map_iff in Hv. destruct Hv as [d [<- Hd]].
  apply inverse_nonneg, maximum_nonneg. eapply all_nonneg_in; eassumption.
Qed.

End CalculatorFacts.

(** Two different binary64 values are told apart by their bits. *)
Ltac float_neq H :=
  apply (f_equal Prim2SF) in H; vm_compute in H; discriminate H.


Ltac avg_inv_nnd_differs H :=
  apply (f_equal avg_inv_nnd_of) in H; float_neq H.

(* ------------------------------------------------------------------ *)
(** * The calculator *)




(** The calculator at the input of the counterexample, and at two distinct
    points whose squared distance underflows. *)
Example calculate_on_overflow :
  calculate_nnd_metrics_for_cell (frame_of [(0, 0); (1e200, 0)]%float) =
  Ok (infinity, 0%float, 2%nat).
Proof. vm_compute. reflexivity. Qed.

Example calculate_on_underflow :
  calculate_nnd_metrics_for_cell (frame_of [(0, 0); (1e-200, 0)]%float) =
  Ok (0%float, (1 / EPSILON)%float, 2%nat).
Proof. vm_compute. reflexivity. Qed.

(** C2.  With no point the calculator returns (NaN, NaN, 0) and with one
    point (NaN, NaN, 1), whatever the nearest-neighbour search would do: the
    search is not consulted and nothing is raised. *)
Theorem C2_degenerate_counts
  (search : list point -> result (list (list npfloat)))
  (df : DataFrame) (pts : list point) :
  xy_values df = Ok pts ->
  (List.length pts = 0%nat ->
   calculate_with search df = Ok (nan, nan, 0%nat)) /\
  (List.length pts = 1%nat ->
   calculate_with search df = Ok (nan, nan, 1%nat)).
Proof.
  intros Hxy. unfold calculate_with. rewrite Hxy. cbn [bind].
  split; intros ->; reflexivity.
Qed.

Lemma C2_witness :
  calculate_with (fun _ => Raise OtherError) (frame_of []) =
  Ok (nan, nan, 0%nat) /\
  calculate_with (fun _ => Raise OtherError) (frame_of [(3, 4)%float]) =
  Ok (nan, nan, 1%nat).
Proof.
  split.
  - apply (proj1 (@C2_degenerate_counts (fun _ => Raise OtherError)
                    (frame_of []) [] eq_refl)).
    reflexivity.
  - apply (proj2 (@C2_degenerate_counts (fun _ => Raise OtherError)
                    (frame_of [(3, 4)%float])
                    [(3, 4)%float] eq_refl)).
    reflexivity.
Defined.

(** C3.  On every frame that has the two coordinate columns the calculator
    returns a result and raises nothing, the count is the number of rows, and
    when the nearest-neighbour search raises, both metrics are NaN. *)
Theorem C3_never_raises
  (search : list point -> result (list (list npfloat)))
  (df : DataFrame) (pts : list point) :
  xy_values df = Ok pts ->
  exists avg inv : npfloat,
    calculate_with search df = Ok (avg, inv, List.length pts) /\
    (forall e, search pts = Raise e -> avg = nan /\ inv = nan).
Proof.
  intros Hxy. unfold calculate_with. rewrite Hxy. cbn [bind].
  destruct (Nat.eqb_spec (List.length pts) 1) as [E|N1].
  - exists nan, nan. rewrite E. split; [reflexivity|auto].
  - destruct (Nat.leb_spec 2 (List.length pts)) as [H2|H2].
    + destruct (search pts) as [distances|e0] eqn:Es; cbn [bind].
      * destruct (column 1 distances) as [nnds|e1].
        -- eexists _, _. split; [reflexivity|]. intros e He. discriminate.
        -- exists nan, nan. split; [reflexivity|auto].
      * exists nan, nan. split; [reflexivity|auto].
    + exists nan, nan. replace (List.length pts) with 0%nat by lia.
      split; [reflexivity|auto].
Qed.

Lemma C3_witness :
  exists avg inv : npfloat,
    calculate_with (NearestNeighbors_fit_kneighbors 2)
      (frame_of [(nan, 0); (1, 1)]%float) =
    Ok (avg, inv, 2%nat) /\
    (forall e,
        NearestNeighbors_fit_kneighbors 2 [(nan, 0); (1, 1)]%float
        = Raise e -> avg = nan /\ inv = nan).
Proof.
  apply (@C3_never_raises (NearestNeighbors_fit_kneighbors 2)
           (frame_of [(nan, 0); (1, 1)]%float)
           [(nan, 0); (1, 1)]%float).
  reflexivity.
Defined.

(** A missing cell (NaN) makes the search raise; the calculator answers with
    NaN metrics and the exact count. *)
Example calculate_on_nan_coordinate :
  calculate_nnd_metrics_for_cell (frame_of [(nan, 0); (1, 1)]%float) =
  Ok (nan, nan, 2%nat).
Proof. reflexivity. Qed.

(* ------------------------------------------------------------------ *)
(** * Two points *)

Section TwoPoints.

Local Open Scope float_scope.

Lemma nnds_of_pair (p q : point) :
  all_finite [p; q] = true ->
  nnds_of [p; q] = [euclidean p q; euclidean p q].
Proof.
  intros Hf.
  destruct (@all_finite_in [p; q] p Hf (or_introl eq_refl)) as [Hpx Hpy].
  destruct (@all_finite_in [p; q] q Hf (or_intror (or_introl eq_refl)))
    as [Hqx Hqy].
  unfold nnds_of. cbn [map sort_ascending fold_right insert_sorted].
  rewrite (euclidean_self p Hpx Hpy), (euclidean_self q Hqx Hqy).
  rewrite (euclidean_sym q p Hqx Hqy Hpx Hpy).
  pose proof (euclidean_nonneg p q Hpx Hpy Hqx Hqy) as Hd.
  rewrite (leb_zero_least _ Hd).
  destruct (euclidean p q <=? 0) eqn:E; cbn [nth]; [|reflexivity].
  assert (E0 : euclidean p q = 0).
  { apply leb_antisym; try assumption; [reflexivity|].
    now apply leb_zero_least. }
  now rewrite E0.
Qed.

(** Two finite points at computed distance [d]: both nearest distances are
    [d], and the means of two equal numbers are exact here. *)
Lemma calculate_pair (df : DataFrame) (p q : point) :
  xy_values df = Ok [p; q] ->
  all_finite [p; q] = true ->
  calculate_nnd_metrics_for_cell df =
  Ok (euclidean p q, 1 / maximum (euclidean p q) EPSILON, 2%nat).
Proof.
  intros Hxy Hf.
  destruct (@all_finite_in [p; q] p Hf (or_introl eq_refl)) as [Hpx Hpy].
  destruct (@all_finite_in [p; q] q Hf (or_intror (or_introl eq_refl)))
    as [Hqx Hqy].
  pose proof (euclidean_nonneg p q Hpx Hpy Hqx Hqy) as Hd.
  rewrite (@calculate_finite df [p; q] Hxy Hf) by (simpl; lia).
  rewrite (@nnds_of_pair p q Hf). unfold inverse_of. cbn [map List.length].
  rewrite (@np_mean_pair _ Hd).
  rewrite np_mean_pair by (apply inverse_nonneg, maximum_nonneg, Hd).
  rewrite (inverse_halve _ Hd).
  unfold euclidean at 1 2 3. rewrite sqrt_halve; [reflexivity|].
  apply add_nonneg; apply square_nonneg; now apply sub_finite_not_nan.
Qed.

Lemma maximum_above (d : npfloat) :
  (EPSILON <=? d) = true -> maximum d EPSILON = d.
Proof. intros H. unfold maximum. now rewrite H. Qed.

End TwoPoints.

(** C4, as amended.  For two finite points at computed distance [d] the
    calculator returns [avgNND = d] and [avgInverseNND = 1 / max(d, EPSILON)],
    which is [1 / d] when [d >= EPSILON].  Here [d] is the binary64 value
    [euclidean p q], and the two means are exact. *)
Theorem C4_two_points (df : DataFrame) (p q : point) :
  xy_values df = Ok [p; q] ->
  all_finite [p; q] = true ->
  calculate_nnd_metrics_for_cell df =
  Ok (euclidean p q, (1 / maximum (euclidean p q) EPSILON)%float, 2%nat) /\
  ((EPSILON <=? euclidean p q)%float = true ->
   calculate_nnd_metrics_for_cell df =
   Ok (euclidean p q, (1 / euclidean p q)%float, 2%nat)).
Proof.
  intros Hxy Hf. split.
  - now apply calculate_pair.
  - intros He. rewrite (@calculate_pair df p q Hxy Hf).
    now rewrite (@maximum_above _ He).
Qed.

Lemma C4_witness :
  calculate_nnd_metrics_for_cell (frame_of [(0, 0); (3, 4)]%float) =
  Ok (euclidean (0, 0) (3, 4),
      (1 / maximum (euclidean (0, 0) (3, 4)) EPSILON)%float, 2%nat)%float /\
  ((EPSILON <=? euclidean (0, 0) (3, 4))%float = true ->
   calculate_nnd_metrics_for_cell (frame_of [(0, 0); (3, 4)]%float) =
   Ok (euclidean (0, 0) (3, 4), (1 / euclidean (0, 0) (3, 4))%float, 2%nat)%float).
Proof.
  apply (@C4_two_points (frame_of [(0, 0); (3, 4)]%float)
           (0, 0)%float (3, 4)%float eq_refl eq_refl).
Defined.

(** The 3-4-5 triangle: two points five apart. *)
Example calculate_three_four_five :
  calculate_nnd_metrics_for_cell (frame_of [(0, 0); (3, 4)]%float) =
  Ok (5, 0.2, 2%nat)%float.
Proof. vm_compute. reflexivity. Qed.

(** C4 as stated fails: two points closer than [EPSILON] have their inverse
    distance clamped.  At distance [1e-10] the calculator returns
    [avgInverseNND = 1 / EPSILON], not [1 / d = 1e10]. *)
Lemma C4_counterexample :
  ~ (forall (df : DataFrame) (p q : point),
        xy_values df = Ok [p; q] ->
        all_finite [p; q] = true ->
        (0 <? euclidean p q)%float = true ->
        calculate_nnd_metrics_for_cell df =
        Ok (euclidean p q, (1 / euclidean p q)%float, 2%nat)).
Proof.
  intros H.
  specialize (H (frame_of [(0, 0); (1e-10, 0)]%float)
                (0, 0)%float (1e-10, 0)%float eq_refl eq_refl eq_refl).
  avg_inv_nnd_differs H.
Qed.

(** The calculator at the input of the counterexample. *)
Example calculate_below_epsilon :
  calculate_nnd_metrics_for_cell (frame_of [(0, 0); (1e-10, 0)]%float) =
  Ok (1e-10, 1 / EPSILON, 2%nat)%float.
Proof. vm_compute. reflexivity. Qed.

(** C5, as amended.  For two finite points at computed distance 0 the
    calculator returns [avgNND = 0] and [avgInverseNND = 1 / EPSILON], a
    finite number: in binary64 it is 999999999.9999999, the float just below
    [1e9]. *)
Theorem C5_coincident_points (df : DataFrame) (p q : point) :
  xy_values df = Ok [p; q] ->
  all_finite [p; q] = true ->
  euclidean p q = 0%float ->
  calculate_nnd_metrics_for_cell df = Ok (0, 1 / EPSILON, 2%nat)%float /\
  isfinite (1 / EPSILON) = true /\
  (1 / EPSILON = 999999999.99999988)%float /\
  (1 / EPSILON <? 1e9)%float = true /\
  next_up (1 / EPSILON) = 1e9%float.
Proof.
  intros Hxy Hf Hd. split; [|repeat split; reflexivity].
  rewrite (@calculate_pair df p q Hxy Hf), Hd. reflexivity.
Qed.

Lemma C5_witness :
  calculate_nnd_metrics_for_cell (frame_of [(3, 7); (3, 7)]%float) =
  Ok (0, 1 / EPSILON, 2%nat)%float.
Proof.
  apply (@C5_coincident_points (frame_of [(3, 7); (3, 7)]%float)
           (3, 7)%float (3, 7)%float eq_refl eq_refl).
  reflexivity.
Defined.

(** C5 as stated fails in its last equality: [1 / EPSILON] is not [1e9] in
    binary64, so two coincident points do not give [avgInverseNND = 1e9]. *)
Lemma C5_counterexample :
  ~ (forall p : point,
        all_finite [p] = true ->
        exists avg : npfloat,
          calculate_nnd_metrics_for_cell (frame_of [p; p]) =
          Ok (avg, 1e9%float, 2%nat)).
Proof.
  intros H. destruct (H (3, 7)%float eq_refl) as [avg E].
  avg_inv_nnd_differs E.
Qed.

(* ------------------------------------------------------------------ *)
(** * Metric ranges *)

Section Bounds.


(** With at least two finite points both metrics are non-negative numbers. *)
Lemma calculate_nonneg (df : DataFrame) (pts : list point) :
  xy_values df = Ok pts ->
  all_finite pts = true ->
  (2 <= List.length pts)%nat ->
  (Z.of_nat (List.length pts) < 2 ^ 53)%Z ->
  exists a b : npfloat,
    calculate_nnd_metrics_for_cell df = Ok (a, b, List.length pts) /\
    nonneg a = true /\ nonneg b = true.
Proof.
  intros Hxy Hf Hlen Hbig.
  rewrite (@calculate_finite df pts Hxy Hf Hlen).
  eexists _, _. split; [reflexivity|].
  pose proof (@nnds_of_nonneg pts Hf Hlen) as Hn.
  split; apply np_mean_nonneg;
    rewrite ?length_inverse_of, ?length_nnds_of;
    try assumption; try lia.
  now apply inverse_of_nonneg.
Qed.

End Bounds.




(* ------------------------------------------------------------------ *)
(** * Tightening a cluster *)

Section Coincident.

Local Open Scope float_scope.





End Coincident.




(** Tightening three collinear points by one half about the middle one
    halves [avgNND] and doubles [avgInverseNND]. *)
Example tightening_three_collinear :
  calculate_nnd_metrics_for_cell (frame_of [(0, 0); (0, 4); (0, 8)]%float) =
    Ok (4, 0.25, 3%nat)%float /\
  calculate_nnd_metrics_for_cell
    (frame_of (map (scale_toward (0, 4)%float 0.5%float)
                   [(0, 0); (0, 4); (0, 8)]%float)) =
    Ok (2, 0.5, 3%nat)%float.
Proof. vm_compute. split; reflexivity. Qed.

(** Two distinct points closer than [EPSILON]: tightening halves [avgNND]
    and leaves [avgInverseNND] at [1 / EPSILON]. *)
Example tightening_below_epsilon :
  calculate_nnd_metrics_for_cell (frame_of [(0, 0); (1e-10, 0)]%float) =
    Ok (1e-10, 1 / EPSILON, 2%nat)%float /\
  calculate_nnd_metrics_for_cell
    (frame_of (map (scale_toward (0, 0)%float 0.5%float)
                   [(0, 0); (1e-10, 0)]%float)) =
    Ok (5e-11, 1 / EPSILON, 2%nat)%float.
Proof. vm_compute. split; reflexivity. Qed.

(* ------------------------------------------------------------------ *)
(** * Order of the points *)

Section Reordering.

Local Open Scope float_scope.




End Reordering.




(** The calculator at the two inputs of the counterexample. *)
Example calculate_reordered :
  calculate_nnd_metrics_for_cell (frame_of [(0, 0); (28, 0); (26, 0)]%float) =
    Ok (10, 0.34615384615384609, 3%nat)%float /\
  calculate_nnd_metrics_for_cell (frame_of [(28, 0); (26, 0); (0, 0)]%float) =
    Ok (10, 0.3461538461538462, 3%nat)%float.
Proof. vm_compute. split; reflexivity. Qed.
(* ------------------------------------------------------------------ *)
(** * The batch loop *)

Section LoopFacts.

Local Open Scope nat_scope.

(** An iteration appends to the state what it appends to the empty one. *)
Lemma loop_body_shift (st : loop_state) (f : csv_file) :
  loop_body st f =
  mkState (all_results st ++ all_results (loop_body (mkState [] 0) f))
          (processed_count st + processed_count (loop_body (mkState [] 0) f)).
Proof.
  unfold loop_body. destruct st as [rs n]. cbn [all_results processed_count].
  destruct (startswith (name f) OUTPUT_PREFIX).
  - cbn [all_results processed_count]. now rewrite app_nil_r, Nat.add_0_r.
  - destruct (try_body (stem (name f)) f) as [[row|]|[]];
      cbn [all_results processed_count app];
      rewrite ?app_nil_r, ?Nat.add_0_r, ?Nat.add_1_r; reflexivity.
Qed.

Lemma fold_loop_shift (l : list csv_file) (st : loop_state) :
  fold_left loop_body l st =
  mkState (all_results st ++ all_results (run_loop l))
          (processed_count st + processed_count (run_loop l)).
Proof.
  unfold run_loop. revert st. induction l as [|f t IH]; intros st.
  - simpl. destruct st. now rewrite app_nil_r, Nat.add_0_r.
  - cbn [fold_left]. rewrite IH, (IH (loop_body _ f)), (loop_body_shift st f).
    cbn [all_results processed_count].
    now rewrite app_assoc, Nat.add_assoc.
Qed.

(** The loop over a concatenation: the rows of the first part, then those of
    the second. *)
Lemma run_loop_app (l1 l2 : list csv_file) :
  run_loop (l1 ++ l2) =
  mkState (all_results (run_loop l1) ++ all_results (run_loop l2))
          (processed_count (run_loop l1) + processed_count (run_loop l2)).
Proof.
  unfold run_loop at 1. rewrite fold_left_app. apply fold_loop_shift.
Qed.

Lemma run_loop_cons (f : csv_file) (l : list csv_file) :
  run_loop (f :: l) =
  mkState (all_results (loop_body (mkState [] 0) f) ++ all_results (run_loop l))
          (processed_count (loop_body (mkState [] 0) f)
           + processed_count (run_loop l)).
Proof.
  unfold run_loop at 1. cbn [fold_left]. apply fold_loop_shift.
Qed.

(** A faulty unit leaves exactly the sentinel row. *)
Lemma loop_body_fault (f : csv_file) :
  unit_fault f ->
  loop_body (mkState [] 0) f = mkState [error_row (stem (name f))] 0.
Proof.
  intros [Hn [e [Ht He]]]. unfold loop_body. rewrite Hn, Ht.
  destruct e; try reflexivity. contradiction.
Qed.

(** An empty file leaves a row of zero points. *)
Lemma loop_body_empty_file (f : csv_file) :
  startswith (name f) OUTPUT_PREFIX = false ->
  try_body (stem (name f)) f = Raise EmptyDataError ->
  loop_body (mkState [] 0) f = mkState [empty_file_row (stem (name f))] 0.
Proof. intros Hn Ht. unfold loop_body. now rewrite Hn, Ht. Qed.

(** A file named like an output leaves nothing. *)
Lemma loop_body_skip (f : csv_file) :
  startswith (name f) OUTPUT_PREFIX = true ->
  loop_body (mkState [] 0) f = mkState [] 0.
Proof. intros Hn. unfold loop_body. now rewrite Hn. Qed.

(** A row of a unit that was processed carries the number of its points. *)
Lemma try_body_count (id : string) (f : csv_file) (row : SummaryRow) :
  try_body id f = Ok (Some row) -> (0 <= NumFoci row)%Z.
Proof.
  unfold try_body. destruct (read_csv f) as [df|e]; cbn [bind]; [|discriminate].
  destruct (negb (has_column X_COL df) || negb (has_column Y_COL df));
    [discriminate|].
  destruct (if List.length (rows df) <? 1
            then Ok (nan, nan, 0)
            else calculate_nnd_metrics_for_cell df) as [[[a b] n]|e];
    cbn [bind]; [|discriminate].
  intros H. injection H as <-. cbn [NumFoci]. lia.
Qed.

(** A frame with the coordinate columns and no row is a unit of zero points. *)
Lemma try_body_no_rows (id : string) (f : csv_file) (df : DataFrame) :
  read_csv f = Ok df ->
  has_column X_COL df = true -> has_column Y_COL df = true ->
  rows df = [] ->
  exists lbl, try_body id f = Ok (Some (mkSummary id lbl nan nan 0%Z)).
Proof.
  intros Hr Hx Hy Hrows. unfold try_body. rewrite Hr. cbn [bind].
  rewrite Hx, Hy, Hrows. cbn. eexists. reflexivity.
Qed.

Lemma table_of_run (d : bool) (ts : string) (l : list csv_file) (ok : bool) :
  table_of (process_folder_gui (mkRun d ts l ok)) =
  if d then all_results (run_loop l) else [].
Proof.
  unfold process_folder_gui. cbn [is_dir csv_files to_csv_ok timestamp].
  destruct d; cbn [negb]; [|reflexivity].
  destruct l as [|f t]; [reflexivity|].
  destruct (all_results (run_loop (f :: t))); [reflexivity|].
  destruct ok; reflexivity.
Qed.

Lemma processed_of_run (d : bool) (ts : string) (l : list csv_file) (ok : bool) :
  processed_of (process_folder_gui (mkRun d ts l ok)) =
  match all_results (run_loop l) with
  | [] => 0
  | _ => if d then processed_count (run_loop l) else 0
  end.
Proof.
  unfold process_folder_gui. cbn [is_dir csv_files to_csv_ok timestamp].
  destruct d; cbn [negb].
  - destruct l as [|f t]; [reflexivity|].
    destruct (all_results (run_loop (f :: t))); [reflexivity|].
    destruct ok; reflexivity.
  - destruct (all_results (run_loop l)); reflexivity.
Qed.

Lemma prefix_append (p s : string) : prefix p (p ++ s)%string = true.
Proof.
  induction p as [|a p IH]; simpl; [now destruct s|].
  destruct (ascii_dec a a); [exact IH|contradiction].
Qed.

End LoopFacts.

Section LoopRows.

Local Open Scope nat_scope.

Lemma run_loop_rows (l : list csv_file) :
  all_results (run_loop l) = flat_map rows_of_file l /\
  processed_count (run_loop l) = list_sum (map counted l).
Proof.
  induction l as [|f t [IHr IHc]]; [split; reflexivity|].
  rewrite run_loop_cons. cbn [all_results processed_count flat_map map list_sum].
  now rewrite IHr, IHc.
Qed.

(** A file is counted only when it adds a row. *)
Lemma counted_le_rows (f : csv_file) :
  counted f + (if raises f then 1 else 0) = List.length (rows_of_file f).
Proof.
  unfold counted, rows_of_file, raises, loop_body.
  destruct (startswith (name f) OUTPUT_PREFIX); [reflexivity|].
  destruct (try_body (stem (name f)) f) as [[row|]|[]]; reflexivity.
Qed.

(** What the body of the [try] gives on a frame with both columns. *)
Lemma try_body_readable (id : string) (f : csv_file) (df : DataFrame) :
  read_csv f = Ok df ->
  has_column X_COL df && has_column Y_COL df = true ->
  exists a b,
    try_body id f =
    Ok (Some (mkSummary id (label_of df) a b (Z.of_nat (List.length (rows df)))))
    /\ (rows df = [] -> a = nan /\ b = nan)
    /\ (rows df <> [] ->
        calculate_nnd_metrics_for_cell df = Ok (a, b, List.length (rows df))).
Proof.
  intros Hr Hc. unfold try_body. rewrite Hr. cbn [bind].
  apply andb_prop in Hc as Hc'. destruct Hc' as [Hx Hy]. rewrite Hx, Hy.
  cbn [negb orb].
  destruct (rows df) as [|r t] eqn:Hrows.
  - cbn. exists nan, nan. repeat split; congruence.
  - cbn [List.length Nat.ltb Nat.leb].
    destruct (calculate_ok df Hc) as [a [b E]]. rewrite Hrows in E.
    rewrite E. cbn [bind List.length]. exists a, b.
    repeat split; congruence.
Qed.

Lemma try_body_missing_column (id : string) (f : csv_file) (df : DataFrame) :
  read_csv f = Ok df ->
  has_column X_COL df && has_column Y_COL df = false ->
  try_body id f = Ok None.
Proof.
  intros Hr Hc. unfold try_body. rewrite Hr. cbn [bind].
  destruct (has_column X_COL df), (has_column Y_COL df);
    try discriminate; reflexivity.
Qed.

Lemma rows_of_file_nil (f : csv_file) :
  rows_of_file f = [] <-> leaves_no_row f = true.
Proof.
  unfold rows_of_file, leaves_no_row, loop_body.
  destruct (startswith (name f) OUTPUT_PREFIX); [cbn; tauto|].
  cbn [orb].
  destruct (read_csv f) as [df|e] eqn:Hr.
  - destruct (has_column X_COL df && has_column Y_COL df) eqn:Hc.
    + destruct (try_body_readable (stem (name f)) f Hr Hc) as [a [b [-> _]]].
      apply andb_prop in Hc. destruct Hc as [-> ->]. cbn. split; discriminate.
    + rewrite (try_body_missing_column (stem (name f)) f Hr Hc).
      destruct (has_column X_COL df), (has_column Y_COL df);
        try discriminate; cbn; tauto.
  - unfold try_body. rewrite Hr. cbn [bind].
    destruct e; cbn; split; discriminate.
Qed.

Lemma flat_map_nil_iff (l : list csv_file) :
  flat_map rows_of_file l = [] <-> forallb leaves_no_row l = true.
Proof.
  induction l as [|f t IH]; [cbn; tauto|].
  cbn [flat_map forallb]. rewrite andb_true_iff, <- IH, <- rows_of_file_nil.
  split.
  - intros H. now apply app_eq_nil in H.
  - intros [-> ->]. reflexivity.
Qed.

Lemma no_rows_no_count (l : list csv_file) :
  flat_map rows_of_file l = [] -> list_sum (map counted l) = 0.
Proof.
  induction l as [|f t IH]; intros E; [reflexivity|].
  cbn [flat_map] in E. apply app_eq_nil in E. destruct E as [Ef Et].
  change (list_sum (map counted (f :: t)))
    with (counted f + list_sum (map counted t)).
  rewrite (IH Et). pose proof (counted_le_rows f) as H.
  rewrite Ef in H. cbn [List.length] in H. lia.
Qed.

(** A file is counted exactly when it is read with both coordinate
    columns. *)
Lemma counted_readable (f : csv_file) :
  counted f = if readable f then 1 else 0.
Proof.
  unfold counted, readable, loop_body.
  destruct (startswith (name f) OUTPUT_PREFIX); [reflexivity|].
  cbn [negb andb].
  destruct (read_csv f) as [df|e] eqn:Hr.
  - destruct (has_column X_COL df && has_column Y_COL df) eqn:Hc.
    + now destruct (try_body_readable (stem (name f)) f Hr Hc) as [a [b [-> _]]].
    + now rewrite (try_body_missing_column (stem (name f)) f Hr Hc).
  - unfold try_body. rewrite Hr. cbn [bind]. now destruct e.
Qed.

Lemma processed_count_readable (l : list csv_file) :
  processed_count (run_loop l) = List.length (filter readable l).
Proof.
  rewrite (proj2 (run_loop_rows l)).
  induction l as [|f t IH]; [reflexivity|].
  change (list_sum (map counted (f :: t)))
    with (counted f + list_sum (map counted t)).
  cbn [filter]. rewrite IH, counted_readable.
  now destruct (readable f).
Qed.

(** The rows a file yields on its own are in the table of every run that
    has the file. *)
Lemma rows_of_file_in_run (l : list csv_file) (g : csv_file) (row : SummaryRow) :
  In g l -> In row (rows_of_file g) -> In row (all_results (run_loop l)).
Proof.
  intros Hg Hrow. rewrite (proj1 (run_loop_rows l)).
  apply in_flat_map. now exists g.
Qed.

End LoopRows.

(** C8, as amended.  A unit whose processing raises an exception other than
    [EmptyDataError] is recorded as the sentinel row
    (identifier, "Processing Error", NaN, NaN, -1), and the batch goes on:
    the table has the rows of the units before it, the sentinel, then the
    rows of the units after it; every other unit that is read with both
    coordinate columns has its row, with the number of its points (never
    negative) as [NumFoci], and is counted as processed; every other empty
    file has its row with [NumFoci = 0]. *)
Theorem C8_fault_sentinel
  (before after : list csv_file) (f : csv_file) (ts : string) (ok : bool) :
  unit_fault f ->
  table_of (process_folder_gui (mkRun true ts (before ++ f :: after) ok)) =
    all_results (run_loop before)
    ++ mkSummary (stem (name f)) "Processing Error" nan nan (-1)%Z
    :: all_results (run_loop after) /\
  processed_of (process_folder_gui (mkRun true ts (before ++ f :: after) ok)) =
    List.length (filter readable (before ++ after)) /\
  (forall g df,
      In g (before ++ after) ->
      startswith (name g) OUTPUT_PREFIX = false ->
      read_csv g = Ok df ->
      has_column X_COL df && has_column Y_COL df = true ->
      exists a b,
        In (mkSummary (stem (name g)) (label_of df) a b
                      (Z.of_nat (List.length (rows df))))
           (table_of (process_folder_gui
                        (mkRun true ts (before ++ f :: after) ok))) /\
        (rows df = [] -> a = nan /\ b = nan) /\
        (rows df <> [] ->
         calculate_nnd_metrics_for_cell df =
         Ok (a, b, List.length (rows df)))) /\
  (forall g,
      In g (before ++ after) ->
      startswith (name g) OUTPUT_PREFIX = false ->
      read_csv g = Raise EmptyDataError ->
      In (mkSummary (stem (name g)) "Empty File" nan nan 0%Z)
         (table_of (process_folder_gui
                      (mkRun true ts (before ++ f :: after) ok)))) /\
  (forall g row, try_body (stem (name g)) g = Ok (Some row) ->
                 (0 <= NumFoci row)%Z).
Proof.
  intros Hf.
  assert (Hrun : run_loop (before ++ f :: after) =
                 mkState (all_results (run_loop before)
                          ++ error_row (stem (name f)) :: all_results (run_loop after))
                         (processed_count (run_loop before)
                          + processed_count (run_loop after))).
  { rewrite run_loop_app, run_loop_cons, (loop_body_fault Hf).
    reflexivity. }
  assert (Hin : forall g, In g (before ++ after) ->
                          In g (before ++ f :: after)).
  { intros g Hg. apply in_app_or in Hg. apply in_or_app.
    destruct Hg as [Hg|Hg]; [now left|right; now right]. }
  rewrite table_of_run, processed_of_run.
  split; [|split; [|split; [|split]]].
  - rewrite Hrun. reflexivity.
  - rewrite Hrun. cbn [all_results processed_count].
    rewrite filter_app, length_app, !processed_count_readable.
    destruct (all_results (run_loop before)); reflexivity.
  - intros g df Hg Hn Hr Hc.
    destruct (try_body_readable (stem (name g)) g Hr Hc) as [a [b [Ht [H0 H1]]]].
    exists a, b. split; [|split; assumption].
    apply (@rows_of_file_in_run (before ++ f :: after) g); [now apply Hin|].
    unfold rows_of_file, loop_body. rewrite Hn, Ht. now left.
  - intros g Hg Hn Hr.
    apply (@rows_of_file_in_run (before ++ f :: after) g); [now apply Hin|].
    unfold rows_of_file, loop_body, try_body. rewrite Hn, Hr. now left.
  - intros g row. apply try_body_count.
Qed.

Lemma C8_witness :
  table_of (process_folder_gui
              (mkRun true "20250417_101500"
                 ([mkFile "cell_01.csv" (Ok (frame_of [(1, 2)%float]))]
                  ++ mkFile "cell_02.csv" (Raise OtherError)
                  :: [mkFile "cell_03.csv" (Ok (frame_of []))])
                 true)) =
    all_results
      (run_loop [mkFile "cell_01.csv" (Ok (frame_of [(1, 2)%float]))])
    ++ mkSummary (stem "cell_02.csv") "Processing Error" nan nan (-1)%Z
    :: all_results (run_loop [mkFile "cell_03.csv" (Ok (frame_of []))]).
Proof.
  apply (@C8_fault_sentinel
           [mkFile "cell_01.csv" (Ok (frame_of [(1, 2)%float]))]
           [mkFile "cell_03.csv" (Ok (frame_of []))]
           (mkFile "cell_02.csv" (Raise OtherError))
           "20250417_101500" true).
  split; [reflexivity|].
  exists OtherError. split; [reflexivity|discriminate].
Defined.

(** C8 as stated fails: the exception of an empty file ([EmptyDataError],
    raised by [read_csv] inside the [try]) has a handler of its own, which
    records the unit with [NumFoci = 0], the count of a unit without points,
    and not with the sentinel [-1]. *)
Lemma C8_counterexample :
  ~ (forall (f : csv_file) (ts : string) (ok : bool),
        raises f = true ->
        exists row,
          In row (table_of (process_folder_gui (mkRun true ts [f] ok))) /\
          Identifier row = stem (name f) /\ NumFoci row = (-1)%Z).
Proof.
  intros H.
  destruct (H (mkFile "cell_03.csv" (Raise EmptyDataError))
              "20250417_101500"%string true eq_refl) as [row [Hin [_ Hn]]].
  destruct Hin as [<-|[]]. discriminate Hn.
Qed.

(** C10.  A file whose name starts with [NND_Summary_Results_] is skipped:
    the run gives the same rows and the same count as without it.  The name of
    the table a run writes starts so, whatever the clock says. *)
Theorem C10_previous_output_skipped
  (before after : list csv_file) (f : csv_file)
  (d : bool) (ts : string) (ok : bool) :
  startswith (name f) "NND_Summary_Results_" = true ->
  run_loop (before ++ f :: after) = run_loop (before ++ after) /\
  table_of (process_folder_gui (mkRun d ts (before ++ f :: after) ok)) =
    table_of (process_folder_gui (mkRun d ts (before ++ after) ok)) /\
  processed_of (process_folder_gui (mkRun d ts (before ++ f :: after) ok)) =
    processed_of (process_folder_gui (mkRun d ts (before ++ after) ok)) /\
  (forall ts', startswith (output_filename ts') "NND_Summary_Results_" = true).
Proof.
  intros Hn.
  assert (Hrun : run_loop (before ++ f :: after) = run_loop (before ++ after)).
  { rewrite !run_loop_app, run_loop_cons, (loop_body_skip f Hn).
    reflexivity. }
  split; [exact Hrun|]. split; [|split].
  - now rewrite !table_of_run, Hrun.
  - now rewrite !processed_of_run, Hrun.
  - intros ts'. apply prefix_append.
Qed.

Lemma C10_witness :
  run_loop ([mkFile "cell_01.csv" (Ok (frame_of [(1, 2)%float]))]
            ++ mkFile (output_filename "20250417_101500")
                      (Ok (frame_of [(5, 5)%float]))
            :: [mkFile "cell_03.csv" (Ok (frame_of []))]) =
  run_loop ([mkFile "cell_01.csv" (Ok (frame_of [(1, 2)%float]))]
            ++ [mkFile "cell_03.csv" (Ok (frame_of []))]).
Proof.
  apply (@C10_previous_output_skipped
           [mkFile "cell_01.csv" (Ok (frame_of [(1, 2)%float]))]
           [mkFile "cell_03.csv" (Ok (frame_of []))]
           (mkFile (output_filename "20250417_101500")
                   (Ok (frame_of [(5, 5)%float])))
           true "20250417_101500" true).
  reflexivity.
Defined.

(** A run over five files: one point, a read fault, an earlier summary, an
    empty file, and a file without the [Y] column. *)
Example run_of_five_files :
  process_folder_gui
    (mkRun true "20250417_101500"
       [mkFile "cell_01.csv" (Ok (frame_of [(1, 2)%float]));
        mkFile "cell_02.csv" (Raise OtherError);
        mkFile "NND_Summary_Results_20250101_000000.csv"
               (Ok (frame_of [(5, 5)%float]));
        mkFile "cell_03.csv" (Raise EmptyDataError);
        mkFile "cell_04.csv" (Ok (mkDataFrame ["X"%string] []))]
       true) =
  Saved "NND_Summary_Results_20250417_101500.csv"
        [mkSummary "cell_01" "N/A" nan nan 1%Z;
         mkSummary "cell_02" "Processing Error" nan nan (-1)%Z;
         mkSummary "cell_03" "Empty File" nan nan 0%Z]
        1.
Proof. reflexivity. Qed.

(* ------------------------------------------------------------------ *)
(** * Worked examples *)

(* ------------------------------------------------------------------ *)
(** * Worked examples *)

(** The end-to-end example of the specification. *)
Example calculate_three_collinear :
  calculate_nnd_metrics_for_cell (frame_of [(0, 0); (0, 4); (0, 8)]%float) =
  Ok (4, 0.25, 3%nat)%float.
Proof. vm_compute. reflexivity. Qed.

Example nnds_of_three_collinear :
  nnds_of [(0, 0); (0, 4); (0, 8)]%float = [4; 4; 4]%float.
Proof. vm_compute. reflexivity. Qed.

(** The mean of three equal numbers need not be that number. *)
Example np_mean_of_three_tenths :
  np_mean [0.1; 0.1; 0.1]%float = 0.10000000000000002%float.
Proof. vm_compute. reflexivity. Qed.

(* ------------------------------------------------------------------ *)
(** * Further properties of the calculator *)

(** X1.  The calculator raises exactly when the frame lacks a coordinate
    column, and then it is a [KeyError]; with both columns it returns a result
    whose count is the number of rows. *)
Theorem calculate_raises_iff_column_missing (df : DataFrame) :
  (has_column X_COL df && has_column Y_COL df = false ->
   calculate_nnd_metrics_for_cell df = Raise KeyError) /\
  (has_column X_COL df && has_column Y_COL df = true ->
   exists avg inv,
     calculate_nnd_metrics_for_cell df = Ok (avg, inv, List.length (rows df))).
Proof.
  split; intros H.
  - unfold calculate_nnd_metrics_for_cell, calculate_with, xy_values.
    rewrite H. reflexivity.
  - now apply calculate_ok.
Qed.

(** X2.  With at least two rows the two metrics are NaN exactly when some
    coordinate is NaN or infinite (the search raises and the handler keeps
    the initial values); with finite coordinates neither is NaN.  The count
    is the number of rows in both cases. *)
Theorem calculate_nan_iff_not_finite (df : DataFrame) (pts : list point) :
  xy_values df = Ok pts ->
  (2 <= List.length pts)%nat ->
  (Z.of_nat (List.length pts) < 2 ^ 53)%Z ->
  exists a b : npfloat,
    calculate_nnd_metrics_for_cell df = Ok (a, b, List.length pts) /\
    is_nan a = negb (all_finite pts) /\
    is_nan b = negb (all_finite pts).
Proof.
  intros Hxy Hlen Hbig. destruct (all_finite pts) eqn:Hf.
  - destruct (@calculate_nonneg df pts Hxy Hf Hlen Hbig) as [a [b [E [Ha Hb]]]].
    exists a, b. split; [exact E|].
    split; now apply nonneg_not_nan.
  - exists nan, nan. split; [now apply calculate_not_finite|].
    split; reflexivity.
Qed.

Lemma calculate_nan_iff_not_finite_witness :
  exists a b : npfloat,
    calculate_nnd_metrics_for_cell
      (frame_of [(0, 0); (3, infinity); (1, 1)]%float) = Ok (a, b, 3%nat) /\
    is_nan a = true /\ is_nan b = true.
Proof.
  apply (@calculate_nan_iff_not_finite
           (frame_of [(0, 0); (3, infinity); (1, 1)]%float)
           [(0, 0); (3, infinity); (1, 1)]%float eq_refl).
  - simpl. lia.
  - simpl. lia.
Defined.

(* ------------------------------------------------------------------ *)
(** * Further properties of the batch loop *)

(** X7.  The table of a run is the concatenation, in the order of the input
    files, of what each file adds on its own, and the reported count is the
    number of files that were read with both coordinate columns: no unit
    affects the row of another. *)
Theorem table_is_concatenation (ts : string) (l : list csv_file) (ok : bool) :
  table_of (process_folder_gui (mkRun true ts l ok)) = flat_map rows_of_file l /\
  processed_of (process_folder_gui (mkRun true ts l ok)) =
  list_sum (map counted l).
Proof.
  destruct (run_loop_rows l) as [Hr Hc].
  rewrite table_of_run, processed_of_run, Hr, Hc. split; [reflexivity|].
  destruct (flat_map rows_of_file l) eqn:E; [|reflexivity].
  symmetry. now apply no_rows_no_count.
Qed.

(** X8.  A file that is read but lacks the [X] or the [Y] column adds no row
    and is not counted: the run is the run without it. *)
Theorem file_without_coordinates_ignored
  (before after : list csv_file) (f : csv_file) (df : DataFrame)
  (d : bool) (ts : string) (ok : bool) :
  read_csv f = Ok df ->
  has_column X_COL df && has_column Y_COL df = false ->
  table_of (process_folder_gui (mkRun d ts (before ++ f :: after) ok)) =
    table_of (process_folder_gui (mkRun d ts (before ++ after) ok)) /\
  processed_of (process_folder_gui (mkRun d ts (before ++ f :: after) ok)) =
    processed_of (process_folder_gui (mkRun d ts (before ++ after) ok)).
Proof.
  intros Hr Hc.
  assert (Hb : loop_body (mkState [] 0) f = mkState [] 0).
  { unfold loop_body.
    rewrite (try_body_missing_column (stem (name f)) f Hr Hc).
    now destruct (startswith (name f) OUTPUT_PREFIX). }
  assert (Hrun : run_loop (before ++ f :: after) = run_loop (before ++ after)).
  { rewrite !run_loop_app, run_loop_cons, Hb. reflexivity. }
  now rewrite !table_of_run, !processed_of_run, Hrun.
Qed.

Lemma file_without_coordinates_ignored_witness :
  table_of (process_folder_gui
              (mkRun true "20250417_101500"
                 ([mkFile "a.csv" (Ok (frame_of [(1, 2)%float]))]
                  ++ mkFile "b.csv"
                            (Ok (mkDataFrame ["Area"; "X"]%string
                                             [mkRow 1%float nan ""]))
                  :: [mkFile "c.csv" (Raise OtherError)])
                 true)) =
  table_of (process_folder_gui
              (mkRun true "20250417_101500"
                 ([mkFile "a.csv" (Ok (frame_of [(1, 2)%float]))]
                  ++ [mkFile "c.csv" (Raise OtherError)])
                 true)).
Proof.
  apply (@file_without_coordinates_ignored
           [mkFile "a.csv" (Ok (frame_of [(1, 2)%float]))]
           [mkFile "c.csv" (Raise OtherError)]
           (mkFile "b.csv"
                   (Ok (mkDataFrame ["Area"; "X"]%string
                                    [mkRow 1%float nan ""])))
           (mkDataFrame ["Area"; "X"]%string [mkRow 1%float nan ""])
           true "20250417_101500" true).
  - reflexivity.
  - reflexivity.
Defined.

(** X9.  An empty file ([EmptyDataError]) is recorded as the row
    (identifier, "Empty File", NaN, NaN, 0) at its place in the table, and
    is not counted among the processed files. *)
Theorem empty_file_recorded
  (before after : list csv_file) (f : csv_file) (ts : string) (ok : bool) :
  startswith (name f) OUTPUT_PREFIX = false ->
  read_csv f = Raise EmptyDataError ->
  table_of (process_folder_gui (mkRun true ts (before ++ f :: after) ok)) =
    all_results (run_loop before)
    ++ mkSummary (stem (name f)) "Empty File" nan nan 0%Z
    :: all_results (run_loop after) /\
  processed_of (process_folder_gui (mkRun true ts (before ++ f :: after) ok)) =
    (processed_count (run_loop before) + processed_count (run_loop after))%nat.
Proof.
  intros Hn Hr.
  assert (Ht : try_body (stem (name f)) f = Raise EmptyDataError)
    by (unfold try_body; now rewrite Hr).
  rewrite table_of_run, processed_of_run.
  rewrite run_loop_app, run_loop_cons, (loop_body_empty_file f Hn Ht).
  cbn [all_results processed_count app]. split; [reflexivity|].
  destruct (all_results (run_loop before)); reflexivity.
Qed.

Lemma empty_file_recorded_witness :
  table_of (process_folder_gui
              (mkRun true "20250417_101500"
                 ([mkFile "a.csv" (Ok (frame_of [(1, 2)%float]))]
                  ++ mkFile "b.csv" (Raise EmptyDataError) :: [])
                 true)) =
  all_results (run_loop [mkFile "a.csv" (Ok (frame_of [(1, 2)%float]))])
  ++ mkSummary (stem "b.csv") "Empty File" nan nan 0%Z
  :: all_results (run_loop []).
Proof.
  apply (@empty_file_recorded
           [mkFile "a.csv" (Ok (frame_of [(1, 2)%float]))] []
           (mkFile "b.csv" (Raise EmptyDataError)) "20250417_101500" true).
  - reflexivity.
  - reflexivity.
Defined.

(** X10.  The sentinel is unambiguous: a row of the table with
    [NumFoci = -1] is the sentinel row of an input file whose processing
    raised a fault. *)
Theorem sentinel_only_from_fault
  (d : bool) (ts : string) (l : list csv_file) (ok : bool) (row : SummaryRow) :
  In row (table_of (process_folder_gui (mkRun d ts l ok))) ->
  NumFoci row = (-1)%Z ->
  exists f, In f l /\ unit_fault f /\ row = error_row (stem (name f)).
Proof.
  rewrite table_of_run. destruct d; [|intros []].
  rewrite (proj1 (run_loop_rows l)). intros Hin Hn.
  apply in_flat_map in Hin. destruct Hin as [f [Hf Hrow]].
  exists f. split; [exact Hf|].
  unfold rows_of_file, loop_body in Hrow. unfold unit_fault.
  destruct (startswith (name f) OUTPUT_PREFIX); [destruct Hrow|].
  destruct (try_body (stem (name f)) f) as [[r|]|e] eqn:Ht.
  - cbn in Hrow. destruct Hrow as [<-|[]].
    apply try_body_count in Ht. lia.
  - destruct Hrow.
  - destruct e; cbn in Hrow; destruct Hrow as [<-|[]];
      try (split; [split; [reflexivity|eexists; split; [reflexivity|discriminate]]
                  |reflexivity]).
    discriminate.
Qed.

Lemma sentinel_only_from_fault_witness :
  exists f,
    In f [mkFile "a.csv" (Ok (frame_of [(1, 2)%float]));
          mkFile "b.csv" (Raise OtherError)] /\
    unit_fault f /\
    mkSummary "b" "Processing Error" nan nan (-1)%Z = error_row (stem (name f)).
Proof.
  apply (@sentinel_only_from_fault true "20250417_101500"
           [mkFile "a.csv" (Ok (frame_of [(1, 2)%float]));
            mkFile "b.csv" (Raise OtherError)]
           true (mkSummary "b" "Processing Error" nan nan (-1)%Z)).
  - right. left. reflexivity.
  - reflexivity.
Defined.

(** X11.  A file that is read and has both coordinate columns always yields
    one row and is counted, whatever its cells hold: the row carries the
    file's stem, the label of line 142-149, the number of rows of the frame
    as [NumFoci], NaN metrics for a frame without rows and the calculator's
    metrics otherwise. *)
Theorem readable_file_row (f : csv_file) (df : DataFrame) :
  startswith (name f) OUTPUT_PREFIX = false ->
  read_csv f = Ok df ->
  has_column X_COL df && has_column Y_COL df = true ->
  exists a b,
    rows_of_file f =
      [mkSummary (stem (name f)) (label_of df) a b
                 (Z.of_nat (List.length (rows df)))] /\
    counted f = 1%nat /\
    (rows df = [] -> a = nan /\ b = nan) /\
    (rows df <> [] ->
     calculate_nnd_metrics_for_cell df = Ok (a, b, List.length (rows df))).
Proof.
  intros Hn Hr Hc.
  destruct (try_body_readable (stem (name f)) f Hr Hc) as [a [b [Ht [H0 H1]]]].
  exists a, b. unfold rows_of_file, counted, loop_body. rewrite Hn, Ht.
  repeat split; auto; apply H0; assumption.
Qed.

Lemma readable_file_row_witness :
  exists a b,
    rows_of_file
      (mkFile "cell_07.csv"
              (Ok (mkDataFrame ["Label"; "X"; "Y"]%string
                               [mkRow 1%float nan "ROI-7";
                                mkRow 2%float 5%float "ROI-7"]))) =
      [mkSummary "cell_07" "ROI-7" a b 2%Z] /\
    counted
      (mkFile "cell_07.csv"
              (Ok (mkDataFrame ["Label"; "X"; "Y"]%string
                               [mkRow 1%float nan "ROI-7";
                                mkRow 2%float 5%float "ROI-7"]))) = 1%nat.
Proof.
  destruct (@readable_file_row
              (mkFile "cell_07.csv"
                      (Ok (mkDataFrame ["Label"; "X"; "Y"]%string
                                       [mkRow 1%float nan "ROI-7";
                                        mkRow 2%float 5%float "ROI-7"])))
              (mkDataFrame ["Label"; "X"; "Y"]%string
                           [mkRow 1%float nan "ROI-7";
                            mkRow 2%float 5%float "ROI-7"])
              eq_refl eq_refl eq_refl) as [a [b [H1 [H2 _]]]].
  exists a, b. split; [exact H1|exact H2].
Defined.

(** X12.  A run on a valid folder ends with "no results", and writes no
    table, exactly when the folder has CSV files and each of them is either
    named like an output of the program or lacks a coordinate column.  A
    folder whose files all fail still gets a table of sentinel rows. *)
Theorem no_results_iff (inp : run_input) :
  process_folder_gui inp = NoResults <->
  is_dir inp = true /\ csv_files inp <> [] /\
  forallb leaves_no_row (csv_files inp) = true.
Proof.
  unfold process_folder_gui.
  rewrite <- flat_map_nil_iff, <- (proj1 (run_loop_rows (csv_files inp))).
  destruct (is_dir inp); cbn [negb].
  - destruct (csv_files inp) as [|f t] eqn:E.
    + split; [discriminate|]. intros [_ [H _]]. congruence.
    + destruct (all_results (run_loop (f :: t))) eqn:Er.
      * split; [|reflexivity]. intros _. repeat split; congruence.
      * destruct (to_csv_ok inp); split; try discriminate;
          intros [_ [_ H]]; discriminate.
  - split; [discriminate|]. intros [H _]. discriminate.
Qed.

(** X13.  The table has one row for every counted file and one row for
    every file whose processing raised (an empty file or a fault), and no
    other row; so the count reported never exceeds the rows written, nor the
    rows the number of input files. *)
Theorem table_length (ts : string) (l : list csv_file) (ok : bool) :
  List.length (table_of (process_folder_gui (mkRun true ts l ok))) =
  (processed_of (process_folder_gui (mkRun true ts l ok))
   + List.length (filter raises l))%nat /\
  (List.length (table_of (process_folder_gui (mkRun true ts l ok)))
   <= List.length l)%nat.
Proof.
  rewrite table_of_run, processed_of_run.
  destruct (run_loop_rows l) as [Hr Hc].
  assert (H : (List.length (flat_map rows_of_file l) =
               list_sum (map counted l) + List.length (filter raises l) /\
               List.length (flat_map rows_of_file l) <= List.length l)%nat).
  { clear. induction l as [|f t [IH1 IH2]]; [split; reflexivity|].
    cbn [flat_map filter].
    change (list_sum (map counted (f :: t)))
      with (counted f + list_sum (map counted t))%nat.
    change (List.length (f :: t)) with (S (List.length t)).
    rewrite length_app. pose proof (counted_le_rows f) as Hf.
    assert (counted f + (if raises f then 1 else 0) <= 1)%nat.
    { unfold counted, raises, loop_body.
      destruct (startswith (name f) OUTPUT_PREFIX); [cbn; lia|].
      destruct (try_body (stem (name f)) f) as [[row|]|[]]; cbn; lia. }
    destruct (raises f); cbn [List.length]; lia. }
  rewrite Hr, Hc. destruct H as [H1 H2]. split; [|exact H2].
  destruct (flat_map rows_of_file l) eqn:E; [|exact H1].
  cbn in H1 |- *. lia.
Qed.

(* ------------------------------------------------------------------ *)
(** * Identifiers *)

Section Stem.

Local Open Scope string_scope.

Lemma rfind_dot_app (s t : string) (pos : nat) :
  rfind_dot (s ++ t) pos =
  match rfind_dot t (pos + String.length s) with
  | Some i => Some i
  | None => rfind_dot s pos
  end.
Proof.
  revert pos. induction s as [|c s IH]; intros pos.
  - cbn [append String.length rfind_dot]. rewrite Nat.add_0_r.
    now destruct (rfind_dot t pos).
  - cbn [append String.length rfind_dot]. rewrite IH.
    replace (pos + S (String.length s))%nat
      with (S pos + String.length s)%nat by lia.
    now destruct (rfind_dot t (S pos + String.length s)).
Qed.

Lemma substring_prefix (s t : string) :
  substring 0 (String.length s) (s ++ t) = s.
Proof.
  induction s as [|c s IH]; cbn [append String.length substring].
  - now destruct t.
  - now rewrite IH.
Qed.

Lemma length_append (s t : string) :
  String.length (s ++ t) = (String.length s + String.length t)%nat.
Proof.
  induction s as [|c s IH]; cbn [append String.length]; [reflexivity|].
  now rewrite IH.
Qed.

End Stem.

(** X14.  The identifier of a file named [s.csv] is [s], for every non-empty
    [s], dots inside [s] included: only the last suffix is dropped. *)
Theorem stem_drops_csv (s : string) :
  s <> EmptyString -> stem (s ++ ".csv") = s.
Proof.
  intros Hs. unfold stem. rewrite rfind_dot_app.
  cbn [rfind_dot Ascii.eqb Bool.eqb]. cbn [Nat.add].
  rewrite length_append. cbn [String.length].
  assert (Hl : (0 < String.length s)%nat)
    by (destruct s; [contradiction|cbn; lia]).
  destruct (Nat.ltb_spec 0 (String.length s)) as [_|H]; [|lia].
  destruct (Nat.ltb_spec (String.length s) (String.length s + 4 - 1))
    as [_|H]; [|lia].
  cbn [andb]. apply substring_prefix.
Qed.

Lemma stem_drops_csv_witness : stem ("cell.01.roi" ++ ".csv") = "cell.01.roi"%string.
Proof. apply (@stem_drops_csv "cell.01.roi"). discriminate. Defined.

(* ------------------------------------------------------------------ *)
(** * The generator of synthetic point patterns *)

Section Generator.







End Generator.



Section TwoFixedPoints.




End TwoFixedPoints.



(** The "TwoClose" condition of the script: image 256 x 256, distance 4. *)
Example two_close_default :
  generate_two_points_fixed_distance (256, 256)%Z 4%Q =
  [(128, 126); (128, 130)]%Z.
Proof. reflexivity. Qed.

